(** * tl_controller: the command engine of the transmitted-light bridge

    A shallow embedding of [src/index.ts], [src/commands.ts] and
    [src/store.ts]: the command parser, the session store, the serial
    exchange with its polling wait, the device protocol and the command
    executor, followed by the properties proved about them.

    Conventions of the embedding.
    - A JavaScript string is a [string]; its characters are the code
      units below 256 (the TCP socket decodes its data as ASCII).
    - A JavaScript number that holds an integer is a [Z].  The sign of
      zero is not kept: the program only compares such a number and
      prints it in a template literal, and both treat [-0] as [0].
    - The module-level variables [_port], [_responseQueue] and [_state]
      are fields of one [World] record that every operation threads.
    - An [async] function is a computation in the monad [M]: its
      promise is fulfilled with a value, rejected with an error, or
      never settled.  One command runs at a time, from its first
      statement to the settling of its promise. *)

From Stdlib Require Import ZArith List String Ascii Bool Lia.
From Stdlib Require Import DecimalString DecimalZ.
Import ListNotations.

Local Open Scope string_scope.
Local Open Scope Z_scope.

Set Implicit Arguments.

(** ** Strings as the source uses them *)

Module JsString.

(** The characters [String.prototype.trim] and [parseInt] skip: TAB, LF,
    VT, FF, CR, SP and NBSP are the white space and line terminators
    below code unit 256. *)
Definition isWhiteSpace (c : ascii) : bool :=
  let n := nat_of_ascii c in
  ((9 <=? n) && (n <=? 13) || (n =? 32) || (n =? 160))%nat.

Definition isDigit (c : ascii) : bool :=
  let n := nat_of_ascii c in ((48 <=? n) && (n <=? 57))%nat.

Definition digitValue (c : ascii) : Z := Z.of_nat (nat_of_ascii c) - 48.

Definition LF : string := String (ascii_of_nat 10) "".
Definition CR : string := String (ascii_of_nat 13) "".

(** [s.endsWith(t)] *)
Definition endsWith (s t : string) : bool :=
  let n := String.length s in
  let m := String.length t in
  (m <=? n)%nat && String.eqb (substring (n - m) m s) t.

Fixpoint trimStart (s : string) : string :=
  match s with
  | String c s' => if isWhiteSpace c then trimStart s' else s
  | EmptyString => EmptyString
  end.

Fixpoint trimEnd (s : string) : string :=
  match s with
  | EmptyString => EmptyString
  | String c s' =>
      match trimEnd s' with
      | EmptyString => if isWhiteSpace c then EmptyString else String c EmptyString
      | t => String c t
      end
  end.

(** [s.trim()] *)
Definition trim (s : string) : string := trimEnd (trimStart s).

(** [s.split(" ")]: the pieces between single spaces; never empty, and
    two adjacent spaces enclose an empty piece. *)
Fixpoint split_space (s : string) : list string :=
  match s with
  | EmptyString => [EmptyString]
  | String c s' =>
      if Ascii.eqb c " " then EmptyString :: split_space s'
      else match split_space s' with
           | p :: ps => String c p :: ps
           | [] => [String c EmptyString]
           end
  end.

(** The decimal digits at the head of [s], read left to right onto the
    accumulator: the value so far and whether a digit was seen. *)
Fixpoint readDigits (s : string) (acc : Z) (seen : bool) : Z * bool :=
  match s with
  | String c s' =>
      if isDigit c then readDigits s' (10 * acc + digitValue c) true
      else (acc, seen)
  | EmptyString => (acc, seen)
  end.

(** [Number.parseInt(s, 10)]: leading white space is dropped, one sign
    is read, then the longest run of decimal digits; what follows the
    digits is ignored.  [None] is NaN (no digit where one is due). *)
Definition parseInt (s : string) : option Z :=
  let t := trimStart s in
  let '(sign, body) :=
    match t with
    | String "-" r => (-1, r)
    | String "+" r => (1, r)
    | _ => (1, t)
    end in
  match readDigits body 0 false with
  | (v, true) => Some (sign * v)
  | (_, false) => None
  end.

(** A number in a template literal: an integer prints as its decimal
    numeral (below 10^21, far above any intensity). *)
Definition toString (n : Z) : string := NilZero.string_of_int (Z.to_int n).

End JsString.
Import JsString.

(** ** commands.ts *)

Inductive Command : Type :=
| INITIALIZE
| SHUTDOWN
| TL_INTENSITY (level : Z)
| SHUTTER_OPEN (state : bool).

Inductive Response : Type := OK | ERROR.

(** ** store.ts *)

Module store.

Record State : Type := mkState { shutterOpen : bool; intensity : Z }.

(** The value [_state] is bound to when the module is loaded. *)
Definition initial : State := {| shutterOpen := false; intensity := 0 |}.

Definition setShutter (state : bool) (s : State) : State :=
  {| shutterOpen := state; intensity := intensity s |}.

Definition setIntensity (level : Z) (s : State) : State :=
  {| shutterOpen := shutterOpen s; intensity := level |}.

End store.

(** ** index.ts: the parser *)

(** [Command | "ERROR"] *)
Inductive Parsed : Type :=
| Cmd (c : Command)
| ParseERROR.

Definition parseCommand (textCommand : string) : Parsed :=
  if negb (endsWith textCommand LF) then ParseERROR
  else
    match split_space (trim textCommand) with
    | [] => ParseERROR
    | prefix :: args =>
        if (prefix =? "SHUTDOWN")%string then Cmd SHUTDOWN
        else if (prefix =? "INITIALIZE")%string then Cmd INITIALIZE
        else if (prefix =? "TL_INTENSITY")%string then
          match args with
          | [a] =>
              match parseInt a with
              | None => ParseERROR
              | Some intensity =>
                  if (intensity <? 0) || (intensity >? 255) then ParseERROR
                  else Cmd (TL_INTENSITY intensity)
              end
          | _ => ParseERROR
          end
        else if (prefix =? "SHUTTER_OPEN")%string then
          match args with
          | [a] =>
              if (a =? "0")%string then Cmd (SHUTTER_OPEN false)
              else if (a =? "1")%string then Cmd (SHUTTER_OPEN true)
              else ParseERROR
          | _ => ParseERROR
          end
        else ParseERROR
    end.

(** ** index.ts: module state and the serial line

    [Serial] is the collaborator behind [_port]: what has been handed
    to [_port.write], what each coming write will pass to its callback
    ([None] for a write that is accepted), and the lines the delimiter
    parser will emit, grouped by the suspension of the program during
    which they arrive.  Nothing is assumed about the device: the
    theorems hold for every such line. *)

Record Serial : Type := mkSerial {
  written : list string;
  writeResults : list (option string);
  incoming : list (list string)
}.

(** [unhandled] collects the reasons of the rejected promises that no
    handler was attached to.  The runtime reports them; the program is
    taken to run on. *)
Record World : Type := mkWorld {
  _port : bool;                     (* [_port !== null] *)
  _responseQueue : list string;
  _state : store.State;
  serial : Serial;
  unhandled : list string
}.

Definition withPort (p : bool) (w : World) : World :=
  mkWorld p (_responseQueue w) (_state w) (serial w) (unhandled w).

Definition withQueue (q : list string) (w : World) : World :=
  mkWorld (_port w) q (_state w) (serial w) (unhandled w).

Definition withState (s : store.State) (w : World) : World :=
  mkWorld (_port w) (_responseQueue w) s (serial w) (unhandled w).

Definition withSerial (d : Serial) (w : World) : World :=
  mkWorld (_port w) (_responseQueue w) (_state w) d (unhandled w).

Definition unhandledRejection (e : string) (w : World) : World :=
  mkWorld (_port w) (_responseQueue w) (_state w) (serial w)
          (unhandled w ++ [e]).

(** The world when the module has been loaded and nothing has run. *)
Definition boot (d : Serial) : World := mkWorld false [] store.initial d [].

(** A point where the program is suspended and the event loop runs:
    the ["data"] listener pushes the lines that arrive meanwhile. *)
Definition suspend (w : World) : World :=
  match incoming (serial w) with
  | [] => w
  | ls :: rest =>
      mkWorld (_port w) (_responseQueue w ++ ls) (_state w)
              (mkSerial (written (serial w)) (writeResults (serial w)) rest)
              (unhandled w)
  end.

(** [await new Promise(resolve => _port.write(bytes, resolve))] *)
Definition portWrite (bytes : string) (w : World) : option string * World :=
  let d := serial w in
  let w1 := withSerial (mkSerial (written d ++ [bytes]) (tl (writeResults d))
                                 (incoming d)) w in
  (hd None (writeResults d), suspend w1).

(** ** The monad of [async] functions *)

(** How the promise of an [async] call ends: fulfilled, rejected, or
    left pending for ever (the statements after its [await] never
    run). *)
Inductive Outcome (A : Type) : Type :=
| Ret (a : A)
| Throw (e : string)
| Pending.
Arguments Throw {A} e.
Arguments Pending {A}.

(** [None]: the fuel of a wait ran out before the outcome was known. *)
Definition M (A : Type) : Type := World -> option (Outcome A * World).

Definition ret {A} (a : A) : M A := fun w => Some (Ret a, w).

Definition bind {A B} (m : M A) (k : A -> M B) : M B := fun w =>
  match m w with
  | None => None
  | Some (Throw e, w1) => Some (Throw e, w1)
  | Some (Pending, w1) => Some (Pending, w1)
  | Some (Ret a, w1) => k a w1
  end.

Definition gets {A} (f : World -> A) : M A := fun w => Some (Ret (f w), w).

Definition modify (f : World -> World) : M unit := fun w => Some (Ret tt, f w).

Declare Scope async_scope.
Delimit Scope async_scope with async.
Notation "x <- m ;; k" := (bind m (fun x => k))
  (at level 61, m at next level, right associativity) : async_scope.
Notation "m ;; k" := (bind m (fun _ => k))
  (at level 61, right associativity) : async_scope.
Local Open Scope async_scope.

(** ** index.ts: the exchange *)

Definition default_interval_ms : Z := 10.

(** [waitForResponse(maxWait_ms, interval_ms)]; [fuel] bounds the
    timer callbacks it may schedule.

    The promise it awaits is made with [resolve] alone, and the timer
    callback chains the recursive call with [.then(resolve)]: when the
    recursive call is fulfilled the value is passed on; when it is
    rejected [resolve] is never called, so the awaited promise stays
    pending, and the rejection, having no handler, is an unhandled
    one. *)
Fixpoint waitForResponse (fuel : nat) (maxWait_ms interval_ms : Z) : M string :=
  fun w =>
    match _responseQueue w with
    | r :: q => Some (Ret r, withQueue q w)
    | [] =>
        if maxWait_ms <=? 0 then Some (Throw "timeout", w)
        else match fuel with
             | O => None
             | S fuel' =>
                 match waitForResponse fuel' (maxWait_ms - interval_ms)
                                       interval_ms (suspend w) with
                 | None => None
                 | Some (Ret r, w1) => Some (Ret r, w1)
                 | Some (Throw e, w1) => Some (Pending, unhandledRejection e w1)
                 | Some (Pending, w1) => Some (Pending, w1)
                 end
             end
    end.

(** The timer callbacks a budget can pay for at a positive interval. *)
Definition polls (maxWait_ms interval_ms : Z) : nat :=
  Z.to_nat ((maxWait_ms + interval_ms - 1) / interval_ms).

(** [message + CR], the bytes of an outgoing line. *)
Definition wire (message : string) : string := message ++ CR.

Definition writeToPort (message : string) : M string := fun w =>
  if negb (_port w) then
    Some (Throw "Trying to write to uninitialized port.", w)
  else
    match portWrite (wire message) w with
    | (Some err, w1) => Some (Throw err, w1)
    | (None, w1) =>
        waitForResponse (polls 1000 default_interval_ms)
                        1000 default_interval_ms w1
    end.

(** ** index.ts: the device protocol *)

(** [store.getState()] hands out a copy of [_state]; the state is
    immutable data here, so reading the field is that copy. *)
Definition syncMicroscopeToState : M Response :=
  state <- gets _state ;;
  if store.shutterOpen state then
    resp <- writeToPort ("77020 " ++ toString (store.intensity state) ++ " 0") ;;
    if negb (resp =? "77020")%string then ret ERROR else ret OK
  else
    resp <- writeToPort "77020 0 0" ;;
    if negb (resp =? "77020")%string then ret ERROR else ret OK.

(** [if (_port === null) { _port = new SerialPort(...); ... }]: the
    port is created and its listener attached; the constructor is taken
    to succeed. *)
Definition openPort (w : World) : World :=
  if negb (_port w) then withPort true w else w.

Definition initialize : M Response :=
  modify openPort ;;
  response <- writeToPort "77025 0" ;;
  if negb (response =? "77025")%string then ret ERROR else
  manualResponse <- writeToPort "77005 0" ;;
  if negb (manualResponse =? "77005")%string then ret ERROR else
  intensityResp <- writeToPort "77020 0 0" ;;
  if negb (intensityResp =? "77020")%string then ret ERROR else
  shutterResp <- writeToPort "77032 0 1" ;;
  if negb (shutterResp =? "77032")%string then ret ERROR else
  syncMicroscopeToState.

Definition shutdown : M Response :=
  port <- gets _port ;;
  if port then
    manualResponse <- writeToPort "77005 1" ;;
    if negb (manualResponse =? "77005")%string then ret ERROR
    else modify (withPort false) ;; ret OK
  else modify (withPort false) ;; ret OK.

Definition setIntensity (level : Z) : M Response :=
  modify (fun w => withState (store.setIntensity level (_state w)) w) ;;
  ret OK.

Definition setShutterState (state : bool) : M Response :=
  modify (fun w => withState (store.setShutter state (_state w)) w) ;;
  ret OK.

(** ** index.ts: the executor *)

Definition executeCommand (command : Command) : M Response :=
  (* the statements after the [switch], reached by each [break] *)
  let afterSwitch (operation : M Response) : M Response :=
    result <- operation ;;
    syncResult <- syncMicroscopeToState ;;
    ret (match syncResult with ERROR => syncResult | OK => result end) in
  match command with
  | SHUTDOWN => shutdown
  | INITIALIZE => afterSwitch initialize
  | TL_INTENSITY level => afterSwitch (setIntensity level)
  | SHUTTER_OPEN state => afterSwitch (setShutterState state)
  end.

Definition handleRequest (data : string) : M Response :=
  match parseCommand data with
  | ParseERROR => ret ERROR
  | Cmd parsed => executeCommand parsed
  end.

(** What the ["data"] handler of a connection writes back: the result
    and a line feed, and nothing when the promise is rejected. *)
Definition reply (o : Outcome Response) : option string :=
  match o with
  | Ret OK => Some ("OK" ++ LF)
  | Ret ERROR => Some ("ERROR" ++ LF)
  | Throw _ => None
  | Pending => None
  end.

(** The ["data"] handler of a connection:
    [handleRequest(data).then(r => c.write(r + "\n"))]; a rejection
    has no handler. *)
Definition onData (data : string) (w : World) : option (option string * World) :=
  match handleRequest data w with
  | None => None
  | Some (Throw e, w1) => Some (None, unhandledRejection e w1)
  | Some (o, w1) => Some (reply o, w1)
  end.

(** * The vocabulary of the statements *)

(** ** Exchanges and what a run of them leaves *)

(** What an exchange never touches: the port handle and the session
    state. *)
Definition sameSession (w w' : World) : Prop :=
  _port w' = _port w /\ _state w' = _state w.

(** The lines that arrive during the next [n] suspensions. *)
Definition arrived (n : nat) (w : World) : list string :=
  List.concat (firstn n (incoming (serial w))).

(** The line a synchronisation is due to send for a session state: the
    remembered intensity behind an open shutter, zero behind a closed
    one. *)
Definition syncLine (s : store.State) : string :=
  if store.shutterOpen s
  then "77020 " ++ toString (store.intensity s) ++ " 0"
  else "77020 0 0".

(** [r !== "77020"] decides between ["ERROR"] and ["OK"]. *)
Definition echoed (code r : string) : Response :=
  if (r =? code)%string then OK else ERROR.

(** The operation a command's tag selects. *)
Definition operationOf (command : Command) : M Response :=
  match command with
  | INITIALIZE => initialize
  | SHUTDOWN => shutdown
  | TL_INTENSITY level => setIntensity level
  | SHUTTER_OPEN state => setShutterState state
  end.

Definition isERROR (r : Response) : bool :=
  match r with ERROR => true | OK => false end.

(** One step of the initialisation: an exchange whose answer must be
    the given code for the rest to run. *)
Definition expect (line code : string) (rest : M Response) : M Response :=
  response <- writeToPort line ;;
  if negb (response =? code)%string then ret ERROR else rest.

Fixpoint expectAll (steps : list (string * string)) (rest : M Response)
  : M Response :=
  match steps with
  | [] => rest
  | (line, code) :: steps' => expect line code (expectAll steps' rest)
  end.

(** The four exchanges of the initialisation: the line sent and the
    code its answer must equal. *)
Definition setupExchanges : list (string * string) :=
  [("77025 0", "77025"); ("77005 0", "77005");
   ("77020 0 0", "77020"); ("77032 0 1", "77032")].

(** [answered steps w w']: from [w], each of [steps] in turn has been
    exchanged and answered with its own code, leaving [w']. *)
Fixpoint answered (steps : list (string * string)) (w w' : World) : Prop :=
  match steps with
  | [] => w' = w
  | (line, code) :: steps' =>
      exists w1, writeToPort line w = Some (Ret code, w1)
                 /\ answered steps' w1 w'
  end.

(** ** The session state over whole runs *)

(** A computation keeps the session state when no outcome of it, be it
    a result, a rejection or a promise left pending, changes [_state]. *)
Definition keepsState {A} (m : M A) : Prop :=
  forall w o w', m w = Some (o, w') -> _state w' = _state w.

(** The session state a command leaves, however the command ends. *)
Definition stateAfter (command : Command) (s : store.State) : store.State :=
  match command with
  | TL_INTENSITY level => store.setIntensity level s
  | SHUTTER_OPEN state => store.setShutter state s
  | INITIALIZE | SHUTDOWN => s
  end.

Definition inRange (w : World) : Prop :=
  0 <= store.intensity (_state w) <= 255.

(** The worlds the program can be in: the one it boots in, with any
    serial line behind it, and those that a chunk of data on a
    connection or an idle suspension leads to. *)
Inductive reachable : World -> Prop :=
| reachable_boot d : reachable (boot d)
| reachable_data w data answer w' :
    reachable w -> onData data w = Some (answer, w') -> reachable w'
| reachable_idle w : reachable w -> reachable (suspend w).

(** ** Lines, tokens and numerals *)

(** The pieces the parser dispatches on: [textCommand.trim().split(" ")]. *)
Definition tokens (line : string) : list string := split_space (trim line).

Fixpoint noWhiteSpace (s : string) : bool :=
  match s with
  | EmptyString => true
  | String c s' => negb (isWhiteSpace c) && noWhiteSpace s'
  end.

(** A token: a non-empty string without white space, hence without a
    space. *)
Definition token (s : string) : Prop := s <> "" /\ noWhiteSpace s = true.

(** The tokens joined by single spaces. *)
Fixpoint joinSpace (ts : list string) : string :=
  match ts with
  | [] => ""
  | [t] => t
  | t :: ts' => t ++ " " ++ joinSpace ts'
  end.

Definition startsWithDigit (s : string) : bool :=
  match s with
  | String c _ => isDigit c
  | EmptyString => false
  end.

(** A string without the sign [parseInt] reads at its head. *)
Definition unsigned (s : string) : string :=
  match s with
  | String "-" r => r
  | String "+" r => r
  | _ => s
  end.

(** The integer a string denotes when it is a base-10 numeral: decimal
    digits, at least one, after an optional minus sign. *)
Definition decimalInteger (s : string) : option Z :=
  option_map Z.of_int (NilZero.int_of_string s).

Definition inByteRange (n : Z) : bool := (0 <=? n) && (n <=? 255).

(** What the parser makes of the argument of [TL_INTENSITY]. *)
Definition intensityOf (a : string) : Parsed :=
  match parseInt a with
  | Some n => if inByteRange n then Cmd (TL_INTENSITY n) else ParseERROR
  | None => ParseERROR
  end.

(** What the parser makes of the argument of [SHUTTER_OPEN]. *)
Definition shutterOf (a : string) : Parsed :=
  if (a =? "0")%string then Cmd (SHUTTER_OPEN false)
  else if (a =? "1")%string then Cmd (SHUTTER_OPEN true)
  else ParseERROR.

(** ** Concrete worlds *)

(** A world with the port open, the queue empty, nothing handed to the
    port yet, and the given lines to arrive, one group per suspension. *)
Definition ready (s : store.State) (lines : list (list string)) : World :=
  mkWorld true [] s (mkSerial [] [] lines) [].

(** The same world once [sent] has been handed to the port and the
    lines in [lines] are still to arrive. *)
Definition afterwards (s : store.State) (sent : list string)
           (lines : list (list string)) : World :=
  mkWorld true [] s (mkSerial sent [] lines) [].

(** A port that is open on a device that never answers. *)
Definition silent : World :=
  mkWorld true [] store.initial (mkSerial [] [] []) [].

Definition lit100 : store.State := store.mkState true 100.

(** A device whose third answer of the set-up is wrong. *)
Definition faulty : World :=
  boot (mkSerial [] [] [["77025"]; ["77005"]; ["0"]; ["77020"]]).

Definition faulty3 : World :=
  afterwards store.initial
    [wire "77025 0"; wire "77005 0"; wire "77020 0 0"] [["77020"]].

Definition faulty4 : World :=
  afterwards store.initial
    [wire "77025 0"; wire "77005 0"; wire "77020 0 0"; wire "77020 0 0"] [].

(** A device that answers every line with its code. *)
Definition echoing : World :=
  boot (mkSerial [] []
          [["77025"]; ["77005"]; ["77020"]; ["77032"]; ["77020"]; ["77020"]]).

Definition echoing4 : World :=
  afterwards store.initial
    [wire "77025 0"; wire "77005 0"; wire "77020 0 0"; wire "77032 0 1"]
    [["77020"]; ["77020"]].

Definition echoing6 : World :=
  afterwards store.initial
    [wire "77025 0"; wire "77005 0"; wire "77020 0 0"; wire "77032 0 1";
     wire "77020 0 0"; wire "77020 0 0"] [].

(** The world after the line [TL_INTENSITY 100] has come in on a
    program that was never initialised: the level is stored, and the
    synchronisation throws on the missing port. *)
Definition uninitialised100 : World :=
  mkWorld false [] (store.mkState false 100) (mkSerial [] [] [])
          ["Trying to write to uninitialized port."].

(** ** Runs, frames and the lines on the wire *)

(** Every outcome of a computation relates the world it started in to
    the world it left. *)
Definition frames {A} (R : World -> World -> Prop) (m : M A) : Prop :=
  forall w o w', m w = Some (o, w') -> R w w'.

(** The commands that only write the store before the synchronisation. *)
Definition isSetter (command : Command) : bool :=
  match command with
  | TL_INTENSITY _ | SHUTTER_OPEN _ => true
  | INITIALIZE | SHUTDOWN => false
  end.

(** The lines the program has cause to send: the five fixed ones and
    the intensity line of a level from 0 to 255. *)
Definition allowedLine (l : string) : Prop :=
  In l (map wire ["77025 0"; "77005 0"; "77005 1"; "77020 0 0"; "77032 0 1"])
  \/ exists i, 0 <= i <= 255 /\ l = wire ("77020 " ++ toString i ++ " 0").

(** [w'] has the session state of [w] and, on top of what [w] had
    handed to the port, only allowed lines when the intensity of [w] is
    in range. *)
Definition onlyAllowed (w w' : World) : Prop :=
  _state w' = _state w
  /\ exists new,
       written (serial w') = (written (serial w) ++ new)%list
       /\ (inRange w -> Forall allowedLine new).

(** [leadsTo w w']: chunks of data on a connection and idle
    suspensions take the program from [w] to [w']. *)
Inductive leadsTo : World -> World -> Prop :=
| leadsTo_here w : leadsTo w w
| leadsTo_data w w1 data answer w' :
    leadsTo w w1 -> onData data w1 = Some (answer, w') -> leadsTo w w'
| leadsTo_idle w w1 : leadsTo w w1 -> leadsTo w (suspend w1).

Fixpoint allWhiteSpace (s : string) : bool :=
  match s with
  | EmptyString => true
  | String c s' => isWhiteSpace c && allWhiteSpace s'
  end.

Fixpoint noSpace (s : string) : bool :=
  match s with
  | EmptyString => true
  | String c s' => negb (Ascii.eqb c " ") && noSpace s'
  end.

(** A port that is open, with a line already in the queue. *)
Definition stale (r : string) (lines : list (list string)) : World :=
  mkWorld true [r] store.initial (mkSerial [] [] lines) [].

(** The program before any initialisation, on a line with nothing to
    come. *)
Definition cold : World := boot (mkSerial [] [] []).

(** A device that answers the two synchronisations of a shutter that
    is closed and opened again. *)
Definition twice (s : store.State) : World :=
  ready s [["77020"]; ["77020"]].

(** A port that is open and will refuse the next write. *)
Definition refusing (err : string) : World :=
  mkWorld true [] store.initial (mkSerial [] [Some err] []) [].

(** * Properties *)

(** ** The waiter and the exchange: what they leave alone *)

Lemma sameSession_refl w : sameSession w w.
Proof. split; reflexivity. Qed.

Lemma sameSession_trans w1 w2 w3 :
  sameSession w1 w2 -> sameSession w2 w3 -> sameSession w1 w3.
Proof. unfold sameSession. intros [-> ->] [-> ->]. split; reflexivity. Qed.

Lemma suspend_session w : sameSession w (suspend w).
Proof. unfold suspend. destruct (incoming (serial w)); split; reflexivity. Qed.

Lemma suspend_written w : written (serial (suspend w)) = written (serial w).
Proof. unfold suspend. destruct (incoming (serial w)); reflexivity. Qed.

Lemma suspend_unhandled w : unhandled (suspend w) = unhandled w.
Proof. unfold suspend. destruct (incoming (serial w)); reflexivity. Qed.

Lemma suspend_queue w :
  _responseQueue (suspend w) = (_responseQueue w ++ hd [] (incoming (serial w)))%list.
Proof.
  unfold suspend. destruct (incoming (serial w)); simpl.
  - now rewrite app_nil_r.
  - reflexivity.
Qed.

Lemma suspend_incoming w :
  incoming (serial (suspend w)) = tl (incoming (serial w)).
Proof. unfold suspend. destruct (incoming (serial w)) eqn:E; simpl; auto. Qed.

(** One unfolding of the waiter on an empty queue with budget left. *)
Lemma waitForResponse_poll fuel maxWait interval w :
  _responseQueue w = [] -> 0 < maxWait ->
  waitForResponse (S fuel) maxWait interval w =
  match waitForResponse fuel (maxWait - interval) interval (suspend w) with
  | None => None
  | Some (Ret r, w1) => Some (Ret r, w1)
  | Some (Throw e, w1) => Some (Pending, unhandledRejection e w1)
  | Some (Pending, w1) => Some (Pending, w1)
  end.
Proof.
  intros Hq Hm. simpl. rewrite Hq.
  destruct (maxWait <=? 0) eqn:E; [apply Z.leb_le in E; lia | reflexivity].
Qed.

Lemma waitForResponse_frame fuel : forall maxWait interval w o w',
  waitForResponse fuel maxWait interval w = Some (o, w') ->
  sameSession w w' /\ written (serial w') = written (serial w).
Proof.
  induction fuel as [|fuel IH]; intros maxWait interval w o w' H; simpl in H.
  - destruct (_responseQueue w); [destruct (maxWait <=? 0)|];
      inversion H; subst; repeat split.
  - destruct (_responseQueue w); [|inversion H; subst; repeat split].
    destruct (maxWait <=? 0); [inversion H; subst; repeat split|].
    destruct (waitForResponse fuel (maxWait - interval) interval (suspend w))
      as [[o1 w1]|] eqn:E; [|discriminate].
    apply IH in E. destruct E as [Hs Hw].
    rewrite suspend_written in Hw.
    assert (Hs' : sameSession w w1)
      by (eapply sameSession_trans; [apply suspend_session | exact Hs]).
    destruct o1; inversion H; subst; split; auto.
Qed.

Lemma polls_step maxWait interval :
  0 < interval -> 0 < maxWait ->
  polls maxWait interval = S (polls (maxWait - interval) interval).
Proof.
  intros Hi Hm. unfold polls.
  replace (maxWait - interval + interval - 1)
    with (maxWait + interval - 1 + (-1) * interval) by lia.
  rewrite Z.div_add by lia.
  assert (1 <= (maxWait + interval - 1) / interval).
  { apply Z.div_le_lower_bound; lia. }
  lia.
Qed.

Lemma polls_spent maxWait interval :
  0 < interval -> maxWait <= 0 -> polls maxWait interval = 0%nat.
Proof.
  intros Hi Hm. unfold polls.
  assert ((maxWait + interval - 1) / interval <= 0).
  { assert ((maxWait + interval - 1) / interval < 1); [|lia].
    apply Z.div_lt_upper_bound; lia. }
  lia.
Qed.

(** With a positive interval the waiter settles its outcome within
    [polls] timer callbacks. *)
Lemma waitForResponse_total interval (Hi : 0 < interval) : forall fuel maxWait w,
  (polls maxWait interval <= fuel)%nat ->
  exists o w', waitForResponse fuel maxWait interval w = Some (o, w').
Proof.
  induction fuel as [|fuel IH]; intros maxWait w Hf.
  - simpl. destruct (_responseQueue w); [|eauto].
    destruct (maxWait <=? 0) eqn:E; [eauto|].
    apply Z.leb_gt in E. rewrite (polls_step Hi E) in Hf. lia.
  - simpl. destruct (_responseQueue w); [|eauto].
    destruct (maxWait <=? 0) eqn:E; [eauto|].
    apply Z.leb_gt in E. rewrite (polls_step Hi E) in Hf.
    destruct (IH (maxWait - interval) (suspend w)) as (o & w' & Hw); [lia|].
    rewrite Hw. destruct o; eauto.
Qed.

Lemma arrived_suspend n w :
  arrived (S n) w = (hd [] (incoming (serial w)) ++ arrived n (suspend w))%list.
Proof.
  unfold arrived. rewrite suspend_incoming.
  destruct (incoming (serial w)); simpl; [now rewrite firstn_nil | reflexivity].
Qed.

(** The outcome of a wait that starts on an empty queue: the first
    line to arrive within the budget; with none, a rejection when the
    budget is already spent at the call, and otherwise a promise that
    never settles. *)
Lemma waitForResponse_outcome interval (Hi : 0 < interval) : forall n maxWait w,
  polls maxWait interval = n -> _responseQueue w = [] ->
  exists w',
    waitForResponse n maxWait interval w =
    Some (match arrived n w with
          | r :: _ => Ret r
          | [] => if maxWait <=? 0 then Throw "timeout" else Pending
          end, w').
Proof.
  induction n as [|n IH]; intros maxWait w Hn Hq.
  - assert (Hm : maxWait <= 0).
    { destruct (Z_lt_le_dec 0 maxWait) as [H|H]; [|exact H].
      rewrite (polls_step Hi H) in Hn. discriminate. }
    simpl. rewrite Hq. apply Z.leb_le in Hm. rewrite Hm. eauto.
  - assert (Hm : 0 < maxWait).
    { destruct (Z_lt_le_dec 0 maxWait) as [H|H]; [exact H|].
      rewrite (polls_spent Hi H) in Hn. discriminate. }
    rewrite (polls_step Hi Hm) in Hn. injection Hn as Hn.
    rewrite (waitForResponse_poll _ _ _ Hq Hm), arrived_suspend.
    assert (Hgt : (maxWait <=? 0) = false) by (apply Z.leb_gt; exact Hm).
    rewrite Hgt.
    destruct (hd [] (incoming (serial w))) as [|r ls] eqn:Eh.
    + destruct (IH (maxWait - interval) (suspend w) Hn) as (w' & Hw).
      { rewrite suspend_queue, Hq, Eh. reflexivity. }
      rewrite Hw. simpl.
      destruct (arrived n (suspend w)); [|eauto].
      destruct (maxWait - interval <=? 0); eauto.
    + assert (Hs : _responseQueue (suspend w) = r :: ls)
        by (rewrite suspend_queue, Hq, Eh; reflexivity).
      destruct n; simpl; rewrite Hs; eauto.
Qed.

(** A line that is already queued is returned at once: no suspension,
    nothing else in the world touched. *)
Lemma waitForResponse_queued fuel maxWait interval w r q :
  _responseQueue w = r :: q ->
  waitForResponse fuel maxWait interval w = Some (Ret r, withQueue q w).
Proof. intros H. destruct fuel; simpl; rewrite H; reflexivity. Qed.

(** A wait that starts with budget left never rejects: when nothing
    arrives within the budget its promise is left pending. *)
Lemma waitForResponse_never_rejects interval (Hi : 0 < interval) maxWait w :
  0 < maxWait -> _responseQueue w = [] ->
  arrived (polls maxWait interval) w = [] ->
  exists w',
    waitForResponse (polls maxWait interval) maxWait interval w =
    Some (Pending, w').
Proof.
  intros Hm Hq Ha.
  destruct (waitForResponse_outcome Hi maxWait w eq_refl Hq) as (w' & Hw).
  rewrite Ha in Hw.
  destruct (maxWait <=? 0) eqn:E; [apply Z.leb_le in E; lia|].
  exists w'. exact Hw.
Qed.

(** ** The exchange *)

Lemma writeToPort_closed message w :
  _port w = false ->
  writeToPort message w =
  Some (Throw "Trying to write to uninitialized port.", w).
Proof. intros H. unfold writeToPort. rewrite H. reflexivity. Qed.

Lemma portWrite_frame bytes w :
  sameSession w (snd (portWrite bytes w)) /\
  written (serial (snd (portWrite bytes w))) = (written (serial w) ++ [bytes])%list.
Proof.
  unfold portWrite. simpl. split.
  - eapply sameSession_trans; [|apply suspend_session]. split; reflexivity.
  - rewrite suspend_written. reflexivity.
Qed.

(** An exchange leaves the port handle and the session state alone and
    hands at most its own line to the port: exactly that line when the
    port is open, nothing when it is not. *)
Lemma writeToPort_frame message w o w' :
  writeToPort message w = Some (o, w') ->
  sameSession w w' /\
  written (serial w') =
  (if _port w then written (serial w) ++ [wire message] else written (serial w))%list.
Proof.
  unfold writeToPort. destruct (_port w) eqn:Ep; cbn [negb].
  - destruct (portWrite (wire message) w) as [res w1] eqn:Ew.
    pose proof (portWrite_frame (wire message) w) as [Hs Hw].
    rewrite Ew in Hs, Hw. simpl in Hs, Hw.
    destruct res as [err|].
    + intros H. inversion H; subst. split; assumption.
    + intros H. apply waitForResponse_frame in H. destruct H as [Hs' Hw'].
      split; [eapply sameSession_trans; eassumption | congruence].
  - intros H. inversion H; subst. split; [apply sameSession_refl | reflexivity].
Qed.

(** An exchange that is answered was made on an open port. *)
Lemma writeToPort_Ret message w r w' :
  writeToPort message w = Some (Ret r, w') ->
  _port w = true /\ _port w' = true /\ _state w' = _state w /\
  written (serial w') = (written (serial w) ++ [wire message])%list.
Proof.
  intros H. destruct (_port w) eqn:Ep.
  - apply writeToPort_frame in H. rewrite Ep in H.
    destruct H as [[Hp Hs] Hw]. rewrite Hp. auto.
  - rewrite (writeToPort_closed _ _ Ep) in H. discriminate.
Qed.

(** Every exchange settles its outcome: the fuel it gives the waiter is
    enough. *)
Lemma writeToPort_total message w :
  exists o w', writeToPort message w = Some (o, w').
Proof.
  unfold writeToPort. destruct (negb (_port w)); [eauto|].
  destruct (portWrite (wire message) w) as [[err|] w1]; [eauto|].
  apply waitForResponse_total; [reflexivity | apply Nat.le_refl].
Qed.

(** ** Synchronising the device with the session state *)

(** The synchronisation is its one exchange. *)
Lemma syncMicroscopeToState_unfold w :
  syncMicroscopeToState w =
  match writeToPort (syncLine (_state w)) w with
  | None => None
  | Some (Ret r, w1) => Some (Ret (echoed "77020" r), w1)
  | Some (Throw e, w1) => Some (Throw e, w1)
  | Some (Pending, w1) => Some (Pending, w1)
  end.
Proof.
  unfold syncMicroscopeToState, syncLine, echoed, bind, gets, ret.
  cbv beta iota.
  destruct (store.shutterOpen (_state w));
    destruct (writeToPort _ w) as [[[r|e|] w1]|]; try reflexivity;
    destruct (r =? "77020")%string; reflexivity.
Qed.

Lemma syncMicroscopeToState_total w :
  exists o w', syncMicroscopeToState w = Some (o, w').
Proof.
  rewrite syncMicroscopeToState_unfold.
  destruct (writeToPort_total (syncLine (_state w)) w) as (o & w' & ->).
  destruct o; eauto.
Qed.

Lemma syncMicroscopeToState_frame w o w' :
  syncMicroscopeToState w = Some (o, w') ->
  sameSession w w' /\
  written (serial w') =
  (if _port w then written (serial w) ++ [wire (syncLine (_state w))]
   else written (serial w))%list.
Proof.
  rewrite syncMicroscopeToState_unfold.
  destruct (writeToPort (syncLine (_state w)) w) as [[o1 w1]|] eqn:E;
    [|discriminate].
  apply writeToPort_frame in E.
  destruct o1; intros H; inversion H; subst; exact E.
Qed.

Lemma setShutterState_run state w :
  setShutterState state w =
  Some (Ret OK, withState (store.setShutter state (_state w)) w).
Proof. reflexivity. Qed.

Lemma setIntensity_run level w :
  setIntensity level w =
  Some (Ret OK, withState (store.setIntensity level (_state w)) w).
Proof. reflexivity. Qed.

(** What the executor does after the [switch], given how the
    operation ended. *)
Lemma afterSwitch_run (operation : M Response) w result w1 :
  operation w = Some (Ret result, w1) ->
  (result <- operation ;;
   syncResult <- syncMicroscopeToState ;;
   ret (match syncResult with ERROR => syncResult | OK => result end)) w =
  match syncMicroscopeToState w1 with
  | None => None
  | Some (Ret syncResult, w2) =>
      Some (Ret (match syncResult with ERROR => ERROR | OK => result end), w2)
  | Some (Throw e, w2) => Some (Throw e, w2)
  | Some (Pending, w2) => Some (Pending, w2)
  end.
Proof.
  intros H. unfold bind at 1. rewrite H. unfold bind, ret.
  destruct (syncMicroscopeToState w1) as [[[[]|e|] w2]|]; reflexivity.
Qed.


(** ** Shutting down *)

Lemma shutdown_unfold w :
  shutdown w =
  if _port w then
    match writeToPort "77005 1" w with
    | None => None
    | Some (Ret r, w1) =>
        if (r =? "77005")%string then Some (Ret OK, withPort false w1)
        else Some (Ret ERROR, w1)
    | Some (Throw e, w1) => Some (Throw e, w1)
    | Some (Pending, w1) => Some (Pending, w1)
    end
  else Some (Ret OK, withPort false w).
Proof.
  unfold shutdown, bind, gets, modify, ret. cbv beta iota.
  destruct (_port w); [|reflexivity].
  destruct (writeToPort "77005 1" w) as [[[r|e|] w1]|]; try reflexivity.
  destruct (r =? "77005")%string; reflexivity.
Qed.

(** Whatever its outcome, a shutdown hands the port its one line when
    the port is open and nothing when it is not, and leaves the session
    state alone. *)
Lemma shutdown_frame w o w' :
  shutdown w = Some (o, w') ->
  _state w' = _state w /\
  written (serial w') =
  (if _port w then written (serial w) ++ [wire "77005 1"]
   else written (serial w))%list.
Proof.
  rewrite shutdown_unfold. destruct (_port w) eqn:Ep.
  - destruct (writeToPort "77005 1" w) as [[o1 w1]|] eqn:E; [|discriminate].
    apply writeToPort_frame in E. rewrite Ep in E. destruct E as [[_ Hs] Hw].
    destruct o1 as [r|e|]; [destruct (r =? "77005")%string| |];
      intros H; inversion H; subst; split; assumption.
  - intros H; inversion H; subst; split; reflexivity.
Qed.

(** C6. With a transport open, a shutdown makes exactly one exchange,
    of ["77005 1"]: that line and no other has been handed to the port
    however the shutdown ends, so no synchronisation is made.  When the
    device answers ["77005"] the result is ["OK"] and the transport
    handle is released; when it answers anything else the result is
    ["ERROR"] and the handle is still held. *)
Theorem shutdown_one_exchange w r w1 :
  _port w = true ->
  writeToPort "77005 1" w = Some (Ret r, w1) ->
  (r = "77005" ->
     shutdown w = Some (Ret OK, withPort false w1)
     /\ _port (withPort false w1) = false)
  /\ (r <> "77005" -> shutdown w = Some (Ret ERROR, w1) /\ _port w1 = true)
  /\ (forall o w', shutdown w = Some (o, w') ->
        written (serial w') = (written (serial w) ++ [wire "77005 1"])%list
        /\ _state w' = _state w).
Proof.
  intros Hp H. repeat split.
  - rewrite shutdown_unfold, Hp, H. subst r. reflexivity.
  - rewrite shutdown_unfold, Hp, H.
    apply String.eqb_neq in H0. rewrite H0. reflexivity.
  - apply writeToPort_Ret in H. tauto.
  - apply shutdown_frame in H0. rewrite Hp in H0. tauto.
  - apply shutdown_frame in H0. tauto.
Qed.

(** ** The executor *)

(** C2, as the code has it.  The executor runs the operation its
    command selects.  For [SHUTDOWN] it ends exactly as the shutdown
    does, outcome and world, so with no synchronisation: the one line
    of the shutdown is all the port is handed.  For each other command,
    once the operation has returned, be it ["OK"] or ["ERROR"], the
    synchronisation runs in the world the operation left, and when it
    returns too the result is ["ERROR"] if either of the two returned
    ["ERROR"] and the operation's result otherwise; its line is the
    last one handed to the port.  An operation that throws ends the
    command there, rejected with that error in the world the operation
    left, so with no synchronisation; a synchronisation that throws
    rejects the command likewise, and there is no result. *)
Theorem executeCommand_dispatch :
  (forall w, executeCommand SHUTDOWN w = operationOf SHUTDOWN w)
  /\
  (forall w o w',
      executeCommand SHUTDOWN w = Some (o, w') ->
      written (serial w') =
        (if _port w then written (serial w) ++ [wire "77005 1"]
         else written (serial w))%list)
  /\
  (forall command w result w1,
      command <> SHUTDOWN ->
      operationOf command w = Some (Ret result, w1) ->
      executeCommand command w =
        match syncMicroscopeToState w1 with
        | Some (Ret syncResult, w2) =>
            Some (Ret (if isERROR result || isERROR syncResult
                       then ERROR else result), w2)
        | other => other
        end)
  /\
  (forall command w result w1 syncResult w2,
      command <> SHUTDOWN ->
      operationOf command w = Some (Ret result, w1) ->
      syncMicroscopeToState w1 = Some (Ret syncResult, w2) ->
      executeCommand command w =
        Some (Ret (if isERROR result || isERROR syncResult
                   then ERROR else result), w2)
      /\ written (serial w2) =
           (written (serial w1) ++ [wire (syncLine (_state w1))])%list)
  /\
  (forall command w e w1,
      command <> SHUTDOWN ->
      operationOf command w = Some (Throw e, w1) ->
      executeCommand command w = Some (Throw e, w1))
  /\
  (forall command w result w1 e w2,
      command <> SHUTDOWN ->
      operationOf command w = Some (Ret result, w1) ->
      syncMicroscopeToState w1 = Some (Throw e, w2) ->
      executeCommand command w = Some (Throw e, w2)).
Proof.
  assert (Hgen : forall command w result w1,
             command <> SHUTDOWN ->
             operationOf command w = Some (Ret result, w1) ->
             executeCommand command w =
             match syncMicroscopeToState w1 with
             | Some (Ret syncResult, w2) =>
                 Some (Ret (if isERROR result || isERROR syncResult
                            then ERROR else result), w2)
             | other => other
             end).
  { intros command w result w1 Hc Hop.
    destruct command; try congruence; cbn [operationOf] in Hop;
      unfold executeCommand; rewrite (afterSwitch_run _ _ Hop);
      destruct (syncMicroscopeToState w1) as [[[[]|e|] w2]|];
      destruct result; reflexivity. }
  split; [reflexivity|].
  split; [intros w o w' H; apply shutdown_frame in H; apply H|].
  split; [exact Hgen|].
  split; [|split].
  - intros command w result w1 syncResult w2 Hc Hop Hsync.
    rewrite (Hgen _ _ _ _ Hc Hop), Hsync. split; [reflexivity|].
    rewrite syncMicroscopeToState_unfold in Hsync.
    destruct (writeToPort (syncLine (_state w1)) w1) as [[[r|e|] w3]|] eqn:E;
      try discriminate.
    inversion Hsync; subst. apply writeToPort_Ret in E. tauto.
  - intros command w e w1 Hc Hop.
    destruct command; try congruence; cbn [operationOf] in Hop;
      unfold executeCommand; unfold bind at 1; rewrite Hop; reflexivity.
  - intros command w result w1 e w2 Hc Hop Hsync.
    rewrite (Hgen _ _ _ _ Hc Hop), Hsync. reflexivity.
Qed.

(** C2 as stated fails where an exchange throws.  When the port
    refuses the first write of an initialisation, the command is
    rejected with that error after this one line: the operation has
    failed, no synchronisation has run, and the result is not
    ["ERROR"].  And a [TL_INTENSITY] that comes while no port is open
    has its synchronisation fail on the missing port, and the command
    is rejected, not answered ["ERROR"]. *)
Lemma executeCommand_rejected_not_ERROR :
  executeCommand INITIALIZE (refusing "EIO") =
    Some (Throw "EIO", afterwards store.initial [wire "77025 0"] [])
  /\ operationOf (TL_INTENSITY 5) cold =
     Some (Ret OK, withState (store.mkState false 5) cold)
  /\ syncMicroscopeToState (withState (store.mkState false 5) cold) =
     Some (Throw "Trying to write to uninitialized port.",
           withState (store.mkState false 5) cold)
  /\ executeCommand (TL_INTENSITY 5) cold =
     Some (Throw "Trying to write to uninitialized port.",
           withState (store.mkState false 5) cold).
Proof. repeat split; vm_compute; reflexivity. Qed.

(** C5. A state-changing command whose synchronisation is answered by
    anything but ["77020"] returns ["ERROR"], and the session state it
    leaves is the changed one: the new intensity, or the new shutter
    flag, stays. *)
Theorem no_rollback_on_sync_failure :
  (forall level w r w',
      writeToPort (syncLine (store.setIntensity level (_state w)))
        (withState (store.setIntensity level (_state w)) w) = Some (Ret r, w') ->
      r <> "77020" ->
      executeCommand (TL_INTENSITY level) w = Some (Ret ERROR, w')
      /\ _state w' = store.setIntensity level (_state w)
      /\ store.intensity (_state w') = level)
  /\
  (forall state w r w',
      writeToPort (syncLine (store.setShutter state (_state w)))
        (withState (store.setShutter state (_state w)) w) = Some (Ret r, w') ->
      r <> "77020" ->
      executeCommand (SHUTTER_OPEN state) w = Some (Ret ERROR, w')
      /\ _state w' = store.setShutter state (_state w)
      /\ store.shutterOpen (_state w') = state).
Proof.
  split.
  - intros level w r w' H Hr. unfold executeCommand.
    rewrite (afterSwitch_run _ _ (setIntensity_run level w)).
    rewrite syncMicroscopeToState_unfold.
    change (_state (withState (store.setIntensity level (_state w)) w))
      with (store.setIntensity level (_state w)).
    rewrite H. unfold echoed. apply String.eqb_neq in Hr. rewrite Hr.
    apply writeToPort_Ret in H. destruct H as (_ & _ & Hs & _).
    repeat split; [exact Hs | rewrite Hs; reflexivity].
  - intros state w r w' H Hr. unfold executeCommand.
    rewrite (afterSwitch_run _ _ (setShutterState_run state w)).
    rewrite syncMicroscopeToState_unfold.
    change (_state (withState (store.setShutter state (_state w)) w))
      with (store.setShutter state (_state w)).
    rewrite H. unfold echoed. apply String.eqb_neq in Hr. rewrite Hr.
    apply writeToPort_Ret in H. destruct H as (_ & _ & Hs & _).
    repeat split; [exact Hs | rewrite Hs; reflexivity].
Qed.

Lemma afterSwitch_inv (operation : M Response) w res w' :
  (result <- operation ;;
   syncResult <- syncMicroscopeToState ;;
   ret (match syncResult with ERROR => syncResult | OK => result end)) w =
  Some (Ret res, w') ->
  exists result w1 syncResult,
    operation w = Some (Ret result, w1)
    /\ syncMicroscopeToState w1 = Some (Ret syncResult, w')
    /\ res = match syncResult with ERROR => ERROR | OK => result end.
Proof.
  unfold bind at 1.
  destruct (operation w) as [[[result|e|] w1]|] eqn:Eo; try discriminate.
  unfold bind, ret.
  destruct (syncMicroscopeToState w1) as [[[syncResult|e|] w2]|] eqn:Es;
    try discriminate.
  intros H. inversion H; subst.
  exists result, w1, syncResult. destruct syncResult; auto.
Qed.

(** ** Initialising *)

Lemma initialize_steps w :
  initialize w = expectAll setupExchanges syncMicroscopeToState (openPort w).
Proof. reflexivity. Qed.

Lemma expect_unfold line code rest w :
  expect line code rest w =
  match writeToPort line w with
  | None => None
  | Some (Ret r, w1) =>
      if (r =? code)%string then rest w1 else Some (Ret ERROR, w1)
  | Some (Throw e, w1) => Some (Throw e, w1)
  | Some (Pending, w1) => Some (Pending, w1)
  end.
Proof.
  unfold expect, bind, ret.
  destruct (writeToPort line w) as [[[r|e|] w1]|]; try reflexivity.
  destruct (r =? code)%string; reflexivity.
Qed.

Lemma expectAll_answered steps rest : forall w w',
  answered steps w w' -> expectAll steps rest w = rest w'.
Proof.
  induction steps as [|[line code] steps IH]; intros w w' H; simpl in H.
  - subst. reflexivity.
  - destruct H as (w1 & Hx & Hrest).
    cbn [expectAll]. rewrite expect_unfold, Hx, String.eqb_refl.
    apply IH. exact Hrest.
Qed.

Lemma expectAll_mismatch rest : forall steps n line code w wn r w',
  nth_error steps n = Some (line, code) ->
  answered (firstn n steps) w wn ->
  writeToPort line wn = Some (Ret r, w') ->
  r <> code ->
  expectAll steps rest w = Some (Ret ERROR, w').
Proof.
  induction steps as [|[l c] steps IH]; intros n line code w wn r w' Hn Ha Hx Hr.
  - destruct n; discriminate.
  - destruct n as [|n]; simpl in Hn, Ha.
    + inversion Hn; subst. cbn [expectAll].
      rewrite expect_unfold, Hx.
      apply String.eqb_neq in Hr. rewrite Hr. reflexivity.
    + destruct Ha as (w1 & Hx1 & Ha). cbn [expectAll].
      rewrite expect_unfold, Hx1, String.eqb_refl.
      eapply IH; eassumption.
Qed.

Lemma answered_frame : forall steps w w',
  answered steps w w' ->
  sameSession w w' /\
  written (serial w') = (written (serial w) ++ map wire (map fst steps))%list.
Proof.
  induction steps as [|[line code] steps IH]; intros w w' H; simpl in H.
  - subst. split; [apply sameSession_refl | simpl; now rewrite app_nil_r].
  - destruct H as (w1 & Hx & Ha).
    apply writeToPort_Ret in Hx. destruct Hx as (Hp & Hp1 & Hs & Hw).
    apply IH in Ha. destruct Ha as [[Hp' Hs'] Hw'].
    split; [split; congruence|].
    rewrite Hw', Hw. simpl. rewrite <- app_assoc. reflexivity.
Qed.

(** How an initialisation that returns came to its result: all four
    exchanges were answered with their codes and the synchronisation
    gave the result, or some exchange, the ones before it answered with
    their codes, was answered with something else. *)
Lemma expectAll_inv rest : forall steps w res w',
  expectAll steps rest w = Some (Ret res, w') ->
  (exists w4, answered steps w w4 /\ rest w4 = Some (Ret res, w'))
  \/ (res = ERROR /\
      exists n line code wn r,
        nth_error steps n = Some (line, code)
        /\ answered (firstn n steps) w wn
        /\ writeToPort line wn = Some (Ret r, w')
        /\ r <> code).
Proof.
  induction steps as [|[l c] steps IH]; intros w res w' H.
  - left. exists w. split; [reflexivity | exact H].
  - cbn [expectAll] in H. rewrite expect_unfold in H.
    destruct (writeToPort l w) as [[[r|e|] w1]|] eqn:Ex; try discriminate.
    destruct (r =? c)%string eqn:Er.
    + apply String.eqb_eq in Er. subst r.
      apply IH in H. destruct H as [(w4 & Ha & Hr)|(He & n & line & code & wn & r & Hn & Ha & Hx & Hr)].
      * left. exists w4. split; [|exact Hr]. simpl. eauto.
      * right. split; [exact He|].
        exists (S n), line, code, wn, r. simpl. eauto 8.
    + inversion H; subst. right. split; [reflexivity|].
      exists 0%nat, l, c, w, r. simpl.
      apply String.eqb_neq in Er. auto.
Qed.

Lemma openPort_written w : written (serial (openPort w)) = written (serial w).
Proof. unfold openPort. destruct (negb (_port w)); reflexivity. Qed.

Lemma openPort_state w : _state (openPort w) = _state w.
Proof. unfold openPort. destruct (negb (_port w)); reflexivity. Qed.

Lemma initialize_answered w w4 :
  answered setupExchanges (openPort w) w4 ->
  initialize w = syncMicroscopeToState w4
  /\ written (serial w4) =
       (written (serial w)
        ++ map wire ["77025 0"; "77005 0"; "77020 0 0"; "77032 0 1"])%list
  /\ _state w4 = _state w.
Proof.
  intros Ha. split.
  - rewrite initialize_steps. apply expectAll_answered. exact Ha.
  - apply answered_frame in Ha. destruct Ha as [[_ Hs] Hw].
    rewrite Hw, Hs, openPort_written, openPort_state. split; reflexivity.
Qed.

Lemma initialize_inv w res w' :
  initialize w = Some (Ret res, w') ->
  (exists w4, answered setupExchanges (openPort w) w4
              /\ syncMicroscopeToState w4 = Some (Ret res, w'))
  \/ (res = ERROR /\
      exists n line code wn r,
        nth_error setupExchanges n = Some (line, code)
        /\ answered (firstn n setupExchanges) (openPort w) wn
        /\ writeToPort line wn = Some (Ret r, w')
        /\ r <> code).
Proof.
  intros H. rewrite initialize_steps in H. apply expectAll_inv in H. exact H.
Qed.

(** C3. An initialisation exchanges ["77025 0"], ["77005 0"],
    ["77020 0 0"] and ["77032 0 1"] in this order, each to be answered
    with its own code.  The first answer that differs ends it with
    ["ERROR"] in the world that exchange left: the lines handed to the
    port are those up to and including the failed one.  When all four
    are answered with their codes the initialisation continues as the
    synchronisation of the unchanged session state, and an
    initialisation that returns has taken one of these two ways. *)
Theorem initialize_sequence :
  (forall n line code w wn r w',
      nth_error setupExchanges n = Some (line, code) ->
      answered (firstn n setupExchanges) (openPort w) wn ->
      writeToPort line wn = Some (Ret r, w') ->
      r <> code ->
      initialize w = Some (Ret ERROR, w')
      /\ written (serial w') =
           (written (serial w)
            ++ map wire (firstn (S n)
                 ["77025 0"; "77005 0"; "77020 0 0"; "77032 0 1"]))%list)
  /\
  (forall w w4,
      answered setupExchanges (openPort w) w4 ->
      initialize w = syncMicroscopeToState w4
      /\ written (serial w4) =
           (written (serial w)
            ++ map wire ["77025 0"; "77005 0"; "77020 0 0"; "77032 0 1"])%list
      /\ _state w4 = _state w)
  /\
  (forall w res w',
      initialize w = Some (Ret res, w') ->
      (exists w4, answered setupExchanges (openPort w) w4
                  /\ syncMicroscopeToState w4 = Some (Ret res, w'))
      \/ (res = ERROR /\
          exists n line code wn r,
            nth_error setupExchanges n = Some (line, code)
            /\ answered (firstn n setupExchanges) (openPort w) wn
            /\ writeToPort line wn = Some (Ret r, w')
            /\ r <> code)).
Proof.
  split; [|split].
  - intros n line code w wn r w' Hn Ha Hx Hr.
    split.
    + rewrite initialize_steps. eapply expectAll_mismatch; eassumption.
    + apply answered_frame in Ha. destruct Ha as [_ Hw].
      apply writeToPort_Ret in Hx. destruct Hx as (_ & _ & _ & Hw').
      rewrite Hw', Hw, openPort_written, <- app_assoc. f_equal.
      destruct n as [|[|[|[|n]]]]; simpl in Hn;
        [| | | |destruct n; discriminate];
        inversion Hn; subst; reflexivity.
  - apply initialize_answered.
  - apply initialize_inv.
Qed.

(** C10. A command [INITIALIZE] that returns ["OK"] has made six
    exchanges: the four of the set-up, the synchronisation that ends
    the initialisation, and the synchronisation the executor makes
    after every operation; both send the line of the session state the
    command started from, which it leaves unchanged. *)
Theorem initialize_command_six_exchanges w w' :
  executeCommand INITIALIZE w = Some (Ret OK, w') ->
  written (serial w') =
    (written (serial w)
     ++ map wire ["77025 0"; "77005 0"; "77020 0 0"; "77032 0 1";
                  syncLine (_state w); syncLine (_state w)])%list
  /\ _state w' = _state w.
Proof.
  intros H. unfold executeCommand in H.
  apply afterSwitch_inv in H.
  destruct H as (result & w1 & syncResult & Hinit & Hsync & Hres).
  assert (syncResult = OK /\ result = OK) as [-> ->]
    by (destruct syncResult, result; try discriminate; auto).
  apply initialize_inv in Hinit.
  destruct Hinit as [(w4 & Ha & Hs4)|[He _]]; [|discriminate].
  destruct (initialize_answered _ Ha) as (_ & Hw4 & Hst4).
  assert (Hret : forall v v', syncMicroscopeToState v = Some (Ret OK, v') ->
             written (serial v') = (written (serial v) ++ [wire (syncLine (_state v))])%list
             /\ _state v' = _state v).
  { intros v v' Hv. rewrite syncMicroscopeToState_unfold in Hv.
    destruct (writeToPort (syncLine (_state v)) v) as [[[r|e|] v1]|] eqn:E;
      try discriminate.
    inversion Hv; subst. apply writeToPort_Ret in E. tauto. }
  apply Hret in Hs4. apply Hret in Hsync.
  destruct Hs4 as [Hw1 Hst1]. destruct Hsync as [Hw' Hst'].
  split; [|congruence].
  rewrite Hw', Hw1, Hw4, Hst1, Hst4. simpl map.
  rewrite <- !app_assoc. reflexivity.
Qed.

(** ** The session state over whole runs *)

Section KeepsState.

Context {A B : Type}.
Variable m : M A.
Variable k : A -> M B.
Hypothesis Hm : keepsState m.
Hypothesis Hk : forall a, keepsState (k a).

Lemma keepsState_bind : keepsState (bind m k).
Proof.
  intros w o w'. unfold bind.
  destruct (m w) as [[[a|e|] w1]|] eqn:E; try discriminate.
  - intros H. apply Hk in H. apply Hm in E. congruence.
  - intros H. inversion H; subst. eapply Hm; eassumption.
  - intros H. inversion H; subst. eapply Hm; eassumption.
Qed.

End KeepsState.

Lemma keepsState_ret {A} (a : A) : keepsState (ret a).
Proof. intros w o w' H. inversion H; reflexivity. Qed.

Lemma keepsState_writeToPort message : keepsState (writeToPort message).
Proof. intros w o w' H. apply writeToPort_frame in H. apply H. Qed.

Lemma keepsState_sync : keepsState syncMicroscopeToState.
Proof. intros w o w' H. apply syncMicroscopeToState_frame in H. apply H. Qed.

Lemma keepsState_expect line code rest :
  keepsState rest -> keepsState (expect line code rest).
Proof.
  intros Hr. apply keepsState_bind; [apply keepsState_writeToPort|].
  intros r. destruct (negb (r =? code)%string); [apply keepsState_ret | exact Hr].
Qed.

Lemma keepsState_initialize : keepsState initialize.
Proof.
  intros w o w' H. rewrite initialize_steps in H.
  rewrite <- (openPort_state w). revert H.
  repeat apply keepsState_expect. apply keepsState_sync.
Qed.

Lemma keepsState_shutdown : keepsState shutdown.
Proof. intros w o w' H. apply shutdown_frame in H. apply H. Qed.

Lemma executeCommand_state command w o w' :
  executeCommand command w = Some (o, w') ->
  _state w' = stateAfter command (_state w).
Proof.
  assert (Hrest : forall result : Response,
             keepsState (syncResult <- syncMicroscopeToState ;;
                         ret (match syncResult with
                              | ERROR => syncResult | OK => result end))).
  { intros result. apply keepsState_bind; [apply keepsState_sync|].
    intros a. apply keepsState_ret. }
  destruct command; unfold executeCommand; cbn [stateAfter].
  - apply keepsState_bind; [apply keepsState_initialize | exact Hrest].
  - apply keepsState_shutdown.
  - unfold bind at 1. rewrite setIntensity_run. intros H.
    apply Hrest in H. exact H.
  - unfold bind at 1. rewrite setShutterState_run. intros H.
    apply Hrest in H. exact H.
Qed.

(** The parser lets no intensity through that is out of range. *)
Lemma parseCommand_level data level :
  parseCommand data = Cmd (TL_INTENSITY level) -> 0 <= level <= 255.
Proof.
  unfold parseCommand.
  destruct (negb (endsWith data LF)); [discriminate|].
  destruct (split_space (trim data)) as [|prefix args]; [discriminate|].
  destruct (prefix =? "SHUTDOWN")%string; [discriminate|].
  destruct (prefix =? "INITIALIZE")%string; [discriminate|].
  destruct (prefix =? "TL_INTENSITY")%string.
  - destruct args as [|a [|b args]]; try discriminate.
    destruct (parseInt a) as [n|]; [|discriminate].
    destruct (n <? 0) eqn:E1; [discriminate|].
    destruct (n >? 255) eqn:E2; [discriminate|].
    simpl. intros H. inversion H; subst.
    apply Z.ltb_ge in E1. rewrite Z.gtb_ltb in E2. apply Z.ltb_ge in E2. lia.
  - destruct (prefix =? "SHUTTER_OPEN")%string; [|discriminate].
    destruct args as [|a [|b args]]; try discriminate.
    destruct (a =? "0")%string; [discriminate|].
    destruct (a =? "1")%string; discriminate.
Qed.

Lemma handleRequest_inRange data w o w' :
  inRange w -> handleRequest data w = Some (o, w') -> inRange w'.
Proof.
  unfold handleRequest, inRange. intros Hw.
  destruct (parseCommand data) as [command|] eqn:Ep.
  - intros H. apply executeCommand_state in H. rewrite H.
    destruct command; simpl; try exact Hw.
    apply parseCommand_level in Ep. exact Ep.
  - intros H. inversion H; subst. exact Hw.
Qed.

(** C7. The session state starts as shutter closed, intensity 0, and in
    every world reachable through the command interface the intensity
    is an integer from 0 to 255.  The store does not see to that
    itself, it stores whatever level or flag it is given; the parser
    does, and a line it rejects is answered ["ERROR"] with the world
    untouched. *)
Theorem intensity_always_in_range :
  (forall d, _state (boot d) = store.mkState false 0)
  /\ (forall w, reachable w -> 0 <= store.intensity (_state w) <= 255)
  /\ (forall level s,
        store.intensity (store.setIntensity level s) = level
        /\ store.shutterOpen (store.setIntensity level s) = store.shutterOpen s)
  /\ (forall state s,
        store.shutterOpen (store.setShutter state s) = state
        /\ store.intensity (store.setShutter state s) = store.intensity s)
  /\ (forall data w,
        parseCommand data = ParseERROR ->
        handleRequest data w = Some (Ret ERROR, w)).
Proof.
  split; [reflexivity|]. split; [|repeat split].
  - intros w H. change (inRange w). induction H as [d|w data answer w' H IH Hd|w H IH].
    + unfold inRange. simpl. lia.
    + unfold onData in Hd.
      destruct (handleRequest data w) as [[o w1]|] eqn:E; [|discriminate].
      apply (handleRequest_inRange _ IH) in E.
      destruct o; inversion Hd; subst; exact E.
    + unfold inRange. rewrite (proj2 (suspend_session w)). exact IH.
  - intros data w H. unfold handleRequest. rewrite H. reflexivity.
Qed.

(** ** The parser *)

Lemma isWhiteSpace_space_eqb c : isWhiteSpace c = false -> Ascii.eqb c " " = false.
Proof.
  intros H. destruct (Ascii.eqb c " ") eqn:E; [|reflexivity].
  apply Ascii.eqb_eq in E. subst c. discriminate H.
Qed.

Lemma append_nil_r s : s ++ "" = s.
Proof. induction s as [|c s IH]; simpl; [reflexivity | now rewrite IH]. Qed.

Lemma append_assoc s t u : (s ++ t) ++ u = s ++ (t ++ u).
Proof. induction s as [|c s IH]; simpl; [reflexivity | now rewrite IH]. Qed.

Lemma noWhiteSpace_app s t :
  noWhiteSpace (s ++ t) = noWhiteSpace s && noWhiteSpace t.
Proof.
  induction s as [|c s IH]; simpl; [reflexivity|].
  rewrite IH. now rewrite andb_assoc.
Qed.

Lemma endsWith_LF s : endsWith (s ++ LF) LF = true.
Proof.
  unfold endsWith.
  assert (Hlen : String.length (s ++ LF) = S (String.length s)).
  { induction s as [|c s IH]; simpl; [reflexivity | now rewrite IH]. }
  rewrite Hlen. change (String.length LF) with 1%nat.
  replace (S (String.length s) - 1)%nat with (String.length s) by lia.
  simpl Nat.leb. cbn [andb].
  induction s as [|c s IH]; [reflexivity|]. simpl in Hlen |- *.
  apply IH. now inversion Hlen.
Qed.

Lemma trimStart_token s : token s -> forall t, trimStart (s ++ t) = s ++ t.
Proof.
  intros [Hne Hws] t. destruct s as [|c s]; [congruence|].
  simpl in Hws |- *. apply andb_prop in Hws. destruct Hws as [Hc _].
  apply negb_true_iff in Hc. now rewrite Hc.
Qed.

Lemma trimEnd_noWhiteSpace s : noWhiteSpace s = true -> trimEnd s = s.
Proof.
  induction s as [|c s IH]; [reflexivity|]. simpl. intros H.
  apply andb_prop in H. destruct H as [Hc Hs].
  rewrite (IH Hs). apply negb_true_iff in Hc. rewrite Hc.
  destruct s; reflexivity.
Qed.

Lemma trimEnd_LF s : trimEnd (s ++ LF) = trimEnd s.
Proof.
  induction s as [|c s IH]; [reflexivity|].
  simpl. rewrite IH. reflexivity.
Qed.

Lemma trimEnd_app s t : trimEnd t <> "" -> trimEnd (s ++ t) = s ++ trimEnd t.
Proof.
  intros Ht. induction s as [|c s IH]; [reflexivity|].
  simpl. rewrite IH.
  destruct (s ++ trimEnd t) eqn:E; [|reflexivity].
  destruct s; simpl in E; [congruence | discriminate].
Qed.

Lemma joinSpace_cons t ts :
  ts <> [] -> joinSpace (t :: ts) = t ++ " " ++ joinSpace ts.
Proof. destruct ts; [congruence | reflexivity]. Qed.

Lemma joinSpace_nonempty ts :
  Forall token ts -> ts <> [] -> joinSpace ts <> "".
Proof.
  intros H Hne. destruct H as [|t ts [Ht _] _]; [congruence|].
  destruct ts; simpl; [exact Ht|].
  destruct t; [congruence | discriminate].
Qed.

Lemma trimEnd_String c s :
  trimEnd s <> "" -> trimEnd (String c s) = String c (trimEnd s).
Proof. intros H. simpl. destruct (trimEnd s); [congruence | reflexivity]. Qed.

Lemma trimEnd_joinSpace ts :
  Forall token ts -> trimEnd (joinSpace ts) = joinSpace ts.
Proof.
  induction 1 as [|t ts Ht Hts IH]; [reflexivity|].
  destruct ts as [|t' ts'].
  - simpl. apply trimEnd_noWhiteSpace, Ht.
  - rewrite joinSpace_cons by discriminate.
    assert (Hne : trimEnd (joinSpace (t' :: ts')) <> "").
    { rewrite IH. apply joinSpace_nonempty; [exact Hts | discriminate]. }
    change (" " ++ joinSpace (t' :: ts'))
      with (String " " (joinSpace (t' :: ts'))).
    rewrite trimEnd_app; rewrite (trimEnd_String _ _ Hne).
    + rewrite IH. reflexivity.
    + discriminate.
Qed.

Lemma split_space_noWhiteSpace s :
  noWhiteSpace s = true -> split_space s = [s].
Proof.
  induction s as [|c s IH]; [reflexivity|]. simpl. intros H.
  apply andb_prop in H. destruct H as [Hc Hs].
  apply negb_true_iff in Hc.
  rewrite (isWhiteSpace_space_eqb _ Hc), (IH Hs). reflexivity.
Qed.

Lemma split_space_app s t :
  noWhiteSpace s = true ->
  split_space (s ++ String " " t) = s :: split_space t.
Proof.
  induction s as [|c s IH]; [reflexivity|].
  cbn [noWhiteSpace append split_space]. intros H.
  apply andb_prop in H. destruct H as [Hc Hs].
  apply negb_true_iff in Hc.
  rewrite (isWhiteSpace_space_eqb _ Hc), (IH Hs). reflexivity.
Qed.

Lemma split_space_joinSpace ts :
  Forall token ts -> ts <> [] -> split_space (joinSpace ts) = ts.
Proof.
  induction 1 as [|t ts Ht Hts IH]; [congruence|]. intros _.
  destruct ts as [|t' ts'].
  - simpl. apply split_space_noWhiteSpace, Ht.
  - rewrite joinSpace_cons by discriminate.
    change (" " ++ joinSpace (t' :: ts'))
      with (String " " (joinSpace (t' :: ts'))).
    rewrite split_space_app by apply Ht.
    rewrite IH by discriminate. reflexivity.
Qed.

(** A line made of tokens, single spaces and a line feed is split back
    into those tokens. *)
Lemma tokens_joinSpace ts :
  Forall token ts -> ts <> [] ->
  endsWith (joinSpace ts ++ LF) LF = true
  /\ tokens (joinSpace ts ++ LF) = ts.
Proof.
  intros H Hne. split; [apply endsWith_LF|].
  unfold tokens, trim.
  assert (Hstart : trimStart (joinSpace ts ++ LF) = joinSpace ts ++ LF).
  { destruct H as [|t ts Ht Hts]; [congruence|].
    destruct ts as [|t' ts'].
    - simpl. apply trimStart_token, Ht.
    - rewrite joinSpace_cons by discriminate.
      rewrite append_assoc. apply trimStart_token, Ht. }
  rewrite Hstart, trimEnd_LF, trimEnd_joinSpace by exact H.
  apply split_space_joinSpace; assumption.
Qed.

(** *** Reading a decimal numeral back *)

Lemma readDigits_stop s acc seen :
  startsWithDigit s = false -> readDigits s acc seen = (acc, seen).
Proof. destruct s; simpl; intros H; [|rewrite H]; reflexivity. Qed.

Ltac digit_step :=
  cbn [NilEmpty.string_of_uint append readDigits Pos.of_uint_acc Pos.of_uint];
  match goal with
  | |- context [isDigit ?c] => change (isDigit c) with true
  end; cbv iota.

Lemma readDigits_acc d : forall rest acc,
  startsWithDigit rest = false ->
  readDigits (NilEmpty.string_of_uint d ++ rest) (Z.pos acc) true =
  (Z.pos (Pos.of_uint_acc d acc), true).
Proof.
  induction d; intros rest acc Hr;
    [simpl; apply readDigits_stop; exact Hr | ..];
    digit_step; rewrite <- (IHd rest) by exact Hr; f_equal;
    match goal with
    | |- context [digitValue ?c] =>
        let v := eval vm_compute in (digitValue c) in
        change (digitValue c) with v
    end; lia.
Qed.

Lemma readDigits_uint d : forall rest seen,
  startsWithDigit rest = false ->
  readDigits (NilEmpty.string_of_uint d ++ rest) 0 seen =
  (Z.of_N (Pos.of_uint d),
   seen || match d with Decimal.Nil => false | _ => true end).
Proof.
  induction d; intros rest seen Hr;
    [simpl; rewrite orb_false_r; apply readDigits_stop; exact Hr | ..];
    digit_step; rewrite orb_true_r.
  1: change (10 * 0 + digitValue "0") with 0;
     rewrite IHd by exact Hr; rewrite orb_true_l; reflexivity.
  all: match goal with
       | |- readDigits _ ?v true = (Z.of_N (N.pos (Pos.of_uint_acc _ ?p)), _) =>
           change v with (Z.pos p)
       end; rewrite readDigits_acc by exact Hr; reflexivity.
Qed.

Lemma string_of_uint_head d :
  d <> Decimal.Nil ->
  exists c s, NilEmpty.string_of_uint d = String c s
              /\ isDigit c = true /\ isWhiteSpace c = false
              /\ Ascii.eqb c "-" = false /\ Ascii.eqb c "+" = false.
Proof.
  destruct d; [congruence|..]; intros _; simpl; eauto 10.
Qed.

Lemma noWhiteSpace_string_of_uint d :
  noWhiteSpace (NilEmpty.string_of_uint d) = true.
Proof. induction d; simpl; auto. Qed.

Lemma NilZero_string_of_uint d :
  d <> Decimal.Nil -> NilZero.string_of_uint d = NilEmpty.string_of_uint d.
Proof. destruct d; [congruence|..]; reflexivity. Qed.

(** The sign dispatch of [parseInt] on a string that is already
    trimmed at its start. *)
Lemma parseInt_unsigned c s :
  isWhiteSpace c = false -> Ascii.eqb c "-" = false -> Ascii.eqb c "+" = false ->
  parseInt (String c s) =
  match readDigits (String c s) 0 false with
  | (v, true) => Some v
  | (_, false) => None
  end.
Proof.
  intros Hw Hm Hp. unfold parseInt. cbn [trimStart]. rewrite Hw.
  destruct c as [[] [] [] [] [] [] [] []]; try discriminate Hm;
    try discriminate Hp;
    (destruct (readDigits _ 0 false) as [v []]; [f_equal; lia | reflexivity]).
Qed.

Lemma parseInt_negative s :
  parseInt (String "-" s) =
  match readDigits s 0 false with
  | (v, true) => Some (- v)
  | (_, false) => None
  end.
Proof.
  unfold parseInt. cbn [trimStart]. change (isWhiteSpace "-") with false.
  cbv iota. destruct (readDigits s 0 false) as [v []]; [f_equal; lia | reflexivity].
Qed.

(** [parseInt] reads a decimal numeral back, whatever follows it, as
    long as that does not begin with a digit. *)
Lemma parseInt_string_of_int d rest :
  startsWithDigit rest = false ->
  parseInt (NilZero.string_of_int d ++ rest) = Some (Z.of_int d).
Proof.
  intros Hr.
  assert (Hzero : readDigits (String "0" rest) 0 false = (0, true)).
  { cbn [readDigits]. change (isDigit "0") with true. cbv iota.
    apply readDigits_stop. exact Hr. }
  assert (Hu : forall u, u <> Decimal.Nil ->
             readDigits (NilEmpty.string_of_uint u ++ rest) 0 false =
             (Z.of_uint u, true)).
  { intros u Hn. rewrite readDigits_uint by exact Hr.
    destruct u; [congruence|..]; reflexivity. }
  destruct d as [u|u]; cbn [NilZero.string_of_int Z.of_int].
  - destruct (Decimal.uint_eq_dec u Decimal.Nil) as [->|Hn].
    + change (NilZero.string_of_uint Decimal.Nil ++ rest) with (String "0" rest).
      rewrite parseInt_unsigned by reflexivity. rewrite Hzero. reflexivity.
    + rewrite NilZero_string_of_uint by exact Hn.
      destruct (string_of_uint_head Hn) as (c & s & Hs & _ & Hw & Hm & Hp).
      specialize (Hu u Hn). rewrite Hs in *. cbn [append] in *.
      rewrite (@parseInt_unsigned c (s ++ rest) Hw Hm Hp), Hu. reflexivity.
  - cbn [append]. rewrite parseInt_negative.
    destruct (Decimal.uint_eq_dec u Decimal.Nil) as [->|Hn].
    + change (NilZero.string_of_uint Decimal.Nil ++ rest) with (String "0" rest).
      rewrite Hzero. reflexivity.
    + rewrite NilZero_string_of_uint by exact Hn.
      rewrite (Hu u Hn). reflexivity.
Qed.

Lemma parseInt_toString n rest :
  startsWithDigit rest = false -> parseInt (toString n ++ rest) = Some n.
Proof.
  intros Hr. unfold toString. rewrite parseInt_string_of_int by exact Hr.
  f_equal. apply DecimalZ.of_to.
Qed.

Lemma token_string_of_int d rest :
  noWhiteSpace rest = true -> token (NilZero.string_of_int d ++ rest).
Proof.
  intros Hr.
  assert (Hu : forall u, NilZero.string_of_uint u <> ""
                         /\ noWhiteSpace (NilZero.string_of_uint u) = true).
  { intros u. destruct u; simpl; split; try discriminate; try reflexivity;
      apply noWhiteSpace_string_of_uint. }
  split.
  - destruct d as [u|u]; cbn [NilZero.string_of_int].
    + destruct (Hu u) as [Hne _].
      destruct (NilZero.string_of_uint u); [congruence | discriminate].
    + discriminate.
  - rewrite noWhiteSpace_app, Hr, andb_true_r.
    destruct d as [u|u]; cbn [NilZero.string_of_int].
    + apply Hu.
    + cbn [noWhiteSpace]. change (isWhiteSpace "-") with false.
      apply Hu.
Qed.

Lemma decimalInteger_inv a n :
  decimalInteger a = Some n ->
  exists d, a = NilZero.string_of_int d /\ n = Z.of_int d.
Proof.
  unfold decimalInteger.
  destruct (NilZero.int_of_string a) as [d|] eqn:E; [|discriminate].
  intros H. inversion H. exists d. split; [|reflexivity].
  symmetry. apply NilZero.sis. exact E.
Qed.

Lemma parseInt_decimalInteger a n :
  decimalInteger a = Some n -> parseInt a = Some n.
Proof.
  intros H. apply decimalInteger_inv in H. destruct H as (d & -> & ->).
  rewrite <- (append_nil_r (NilZero.string_of_int d)).
  apply parseInt_string_of_int. reflexivity.
Qed.

Lemma token_decimalInteger a n : decimalInteger a = Some n -> token a.
Proof.
  intros H. apply decimalInteger_inv in H. destruct H as (d & -> & _).
  rewrite <- (append_nil_r (NilZero.string_of_int d)).
  apply token_string_of_int. reflexivity.
Qed.

Lemma readDigits_seen_true s : forall acc, snd (readDigits s acc true) = true.
Proof.
  induction s as [|c s IH]; intros acc; simpl; [reflexivity|].
  destruct (isDigit c); [apply IH | reflexivity].
Qed.

Lemma readDigits_seen s acc :
  snd (readDigits s acc false) = startsWithDigit s.
Proof.
  destruct s as [|c s]; simpl; [reflexivity|].
  destruct (isDigit c); [apply readDigits_seen_true | reflexivity].
Qed.

(** [parseInt] gives NaN exactly when no digit follows the optional
    sign. *)
Lemma parseInt_None a :
  token a -> (parseInt a = None <-> startsWithDigit (unsigned a) = false).
Proof.
  intros [Hne Hws]. destruct a as [|c s]; [congruence|].
  cbn [noWhiteSpace] in Hws. apply andb_prop in Hws. destruct Hws as [Hc _].
  apply negb_true_iff in Hc.
  unfold parseInt. cbn [trimStart]. rewrite Hc. clear Hc Hne.
  destruct c as [[] [] [] [] [] [] [] []]; cbv beta iota zeta;
    match goal with
    | |- (match readDigits ?b 0 false with _ => _ end = None) <-> _ =>
        pose proof (readDigits_seen b 0) as Hs;
        destruct (readDigits b 0 false) as [v []]; cbn [snd] in Hs;
        cbv beta iota; unfold unsigned; rewrite <- Hs;
        split; intros H; (discriminate H || reflexivity)
    end.
Qed.

(** *** What the parser makes of a line *)

Lemma parseCommand_tokens line :
  endsWith line LF = true ->
  parseCommand line =
  match tokens line with
  | [] => ParseERROR
  | prefix :: args =>
      if (prefix =? "SHUTDOWN")%string then Cmd SHUTDOWN
      else if (prefix =? "INITIALIZE")%string then Cmd INITIALIZE
      else if (prefix =? "TL_INTENSITY")%string then
        match args with [a] => intensityOf a | _ => ParseERROR end
      else if (prefix =? "SHUTTER_OPEN")%string then
        match args with [a] => shutterOf a | _ => ParseERROR end
      else ParseERROR
  end.
Proof.
  intros H. unfold parseCommand, tokens. rewrite H. cbn [negb].
  destruct (split_space (trim line)) as [|prefix args]; [reflexivity|].
  destruct (prefix =? "SHUTDOWN")%string; [reflexivity|].
  destruct (prefix =? "INITIALIZE")%string; [reflexivity|].
  destruct (prefix =? "TL_INTENSITY")%string; [|reflexivity].
  destruct args as [|a [|b args]]; try reflexivity.
  unfold intensityOf, inByteRange. destruct (parseInt a) as [n|]; [|reflexivity].
  rewrite Z.gtb_ltb.
  destruct (Z.ltb_spec n 0), (Z.ltb_spec 255 n), (Z.leb_spec 0 n),
    (Z.leb_spec n 255); try lia; reflexivity.
Qed.

Lemma parseCommand_no_LF line :
  endsWith line LF = false -> parseCommand line = ParseERROR.
Proof. intros H. unfold parseCommand. rewrite H. reflexivity. Qed.

Lemma parseCommand_wrong_count line prefix args :
  tokens line = prefix :: args ->
  prefix = "TL_INTENSITY" \/ prefix = "SHUTTER_OPEN" ->
  List.length args <> 1%nat ->
  parseCommand line = ParseERROR.
Proof.
  intros Ht Hp Hl.
  destruct (endsWith line LF) eqn:E; [|apply parseCommand_no_LF; exact E].
  rewrite (parseCommand_tokens _ E), Ht.
  destruct Hp as [-> | ->]; cbn;
    destruct args as [|a [|b args]]; try reflexivity; simpl in Hl; congruence.
Qed.

Lemma tokens_one_argument prefix a :
  token prefix -> token a ->
  endsWith (prefix ++ " " ++ a ++ LF) LF = true
  /\ tokens (prefix ++ " " ++ a ++ LF) = [prefix; a].
Proof.
  intros Hp Ha.
  assert (H : Forall token [prefix; a])
    by (apply Forall_cons; [exact Hp | apply Forall_cons; [exact Ha | apply Forall_nil]]).
  apply tokens_joinSpace in H; [|discriminate].
  cbn [joinSpace] in H. rewrite !append_assoc in H. exact H.
Qed.

Lemma token_TL_INTENSITY : token "TL_INTENSITY".
Proof. split; [discriminate | reflexivity]. Qed.

Lemma token_SHUTTER_OPEN : token "SHUTTER_OPEN".
Proof. split; [discriminate | reflexivity]. Qed.

Lemma parseCommand_intensity_line a :
  token a -> parseCommand ("TL_INTENSITY " ++ a ++ LF) = intensityOf a.
Proof.
  intros Ha.
  destruct (tokens_one_argument token_TL_INTENSITY Ha) as [He Ht].
  change ("TL_INTENSITY" ++ " " ++ a ++ LF) with ("TL_INTENSITY " ++ a ++ LF)
    in He, Ht.
  rewrite (parseCommand_tokens _ He), Ht. reflexivity.
Qed.

Lemma parseCommand_shutter_line a :
  token a -> parseCommand ("SHUTTER_OPEN " ++ a ++ LF) = shutterOf a.
Proof.
  intros Ha.
  destruct (tokens_one_argument token_SHUTTER_OPEN Ha) as [He Ht].
  change ("SHUTTER_OPEN" ++ " " ++ a ++ LF) with ("SHUTTER_OPEN " ++ a ++ LF)
    in He, Ht.
  rewrite (parseCommand_tokens _ He), Ht. reflexivity.
Qed.

(** C4, as the code has it.  On a line [TL_INTENSITY <arg>] ended by a
    line feed the argument goes through [parseInt], which reads an
    optional sign and the longest run of decimal digits at its head and
    ignores what follows.  The parser yields [TL_INTENSITY] with the
    integer read when it lies in 0..255, and ["ERROR"] when the integer
    read is out of that range or when the number of arguments is not
    one.  So an argument that is a base-10 integer yields exactly that
    integer when it lies in 0..255 and ["ERROR"] when not, and so does
    the integer followed by any text that does not begin with a digit;
    an argument in which no digit follows the optional sign yields
    ["ERROR"]. *)
Theorem parseCommand_intensity :
  (forall line a,
      endsWith line LF = true -> tokens line = ["TL_INTENSITY"; a] ->
      parseCommand line =
        match parseInt a with
        | Some n => if (0 <=? n) && (n <=? 255)
                    then Cmd (TL_INTENSITY n) else ParseERROR
        | None => ParseERROR
        end)
  /\
  (forall line args,
      tokens line = "TL_INTENSITY" :: args -> List.length args <> 1%nat ->
      parseCommand line = ParseERROR)
  /\
  (forall a n,
      decimalInteger a = Some n ->
      parseCommand ("TL_INTENSITY " ++ a ++ LF) =
        if (0 <=? n) && (n <=? 255) then Cmd (TL_INTENSITY n) else ParseERROR)
  /\
  (forall a n rest,
      decimalInteger a = Some n ->
      noWhiteSpace rest = true -> startsWithDigit rest = false ->
      parseCommand ("TL_INTENSITY " ++ (a ++ rest) ++ LF) =
        if (0 <=? n) && (n <=? 255) then Cmd (TL_INTENSITY n) else ParseERROR)
  /\
  (forall a,
      token a -> startsWithDigit (unsigned a) = false ->
      parseCommand ("TL_INTENSITY " ++ a ++ LF) = ParseERROR).
Proof.
  repeat split.
  - intros line a He Ht. rewrite (parseCommand_tokens _ He), Ht. reflexivity.
  - intros line args Ht Hl. eapply parseCommand_wrong_count; eauto.
  - intros a n H.
    rewrite (parseCommand_intensity_line (token_decimalInteger _ H)).
    unfold intensityOf. rewrite (parseInt_decimalInteger _ H). reflexivity.
  - intros a n rest H Hw Hd.
    apply decimalInteger_inv in H. destruct H as (d & -> & ->).
    rewrite parseCommand_intensity_line
      by (apply token_string_of_int; exact Hw).
    unfold intensityOf. rewrite (parseInt_string_of_int _ _ Hd). reflexivity.
  - intros a Ha Hn. rewrite (parseCommand_intensity_line Ha).
    unfold intensityOf. apply (parseInt_None Ha) in Hn. rewrite Hn.
    reflexivity.
Qed.

(** C4 as stated fails: the argument [12abc] is no base-10 integer, and
    the parser yields [TL_INTENSITY] with level 12 for it. *)
Lemma parseCommand_intensity_trailing_text :
  decimalInteger "12abc" = None
  /\ parseCommand ("TL_INTENSITY 12abc" ++ LF) = Cmd (TL_INTENSITY 12).
Proof. split; reflexivity. Qed.

(** C8. A line that does not end in a line feed is rejected.  On a line
    [SHUTTER_OPEN <arg>] ended by a line feed, the argument ["0"]
    yields the shutter command with state false, ["1"] yields it with
    state true, any other argument is rejected, and so is any number of
    arguments other than one.  A line whose first token is none of the
    four command names is rejected. *)
Theorem parseCommand_shutter :
  (forall line, endsWith line LF = false -> parseCommand line = ParseERROR)
  /\
  (forall line a,
      endsWith line LF = true -> tokens line = ["SHUTTER_OPEN"; a] ->
      (a = "0" -> parseCommand line = Cmd (SHUTTER_OPEN false))
      /\ (a = "1" -> parseCommand line = Cmd (SHUTTER_OPEN true))
      /\ (a <> "0" -> a <> "1" -> parseCommand line = ParseERROR))
  /\
  (forall a,
      token a ->
      (a = "0" -> parseCommand ("SHUTTER_OPEN " ++ a ++ LF) = Cmd (SHUTTER_OPEN false))
      /\ (a = "1" -> parseCommand ("SHUTTER_OPEN " ++ a ++ LF) = Cmd (SHUTTER_OPEN true))
      /\ (a <> "0" -> a <> "1" ->
          parseCommand ("SHUTTER_OPEN " ++ a ++ LF) = ParseERROR))
  /\
  (forall line args,
      tokens line = "SHUTTER_OPEN" :: args -> List.length args <> 1%nat ->
      parseCommand line = ParseERROR)
  /\
  (forall line prefix args,
      tokens line = prefix :: args ->
      ~ In prefix ["SHUTDOWN"; "INITIALIZE"; "TL_INTENSITY"; "SHUTTER_OPEN"] ->
      parseCommand line = ParseERROR).
Proof.
  assert (Hs : forall a,
             (a = "0" -> shutterOf a = Cmd (SHUTTER_OPEN false))
             /\ (a = "1" -> shutterOf a = Cmd (SHUTTER_OPEN true))
             /\ (a <> "0" -> a <> "1" -> shutterOf a = ParseERROR)).
  { intros a. unfold shutterOf. repeat split.
    - intros ->. reflexivity.
    - intros ->. reflexivity.
    - intros H0 H1. apply String.eqb_neq in H0, H1. rewrite H0, H1.
      reflexivity. }
  split; [exact parseCommand_no_LF|]. split; [|split; [|split]].
  - intros line a He Ht. rewrite (parseCommand_tokens _ He), Ht. apply Hs.
  - intros a Ha. rewrite (parseCommand_shutter_line Ha). apply Hs.
  - intros line args Ht Hl. eapply parseCommand_wrong_count; eauto.
  - intros line prefix args Ht Hp.
    destruct (endsWith line LF) eqn:E; [|apply parseCommand_no_LF; exact E].
    rewrite (parseCommand_tokens _ E), Ht.
    simpl in Hp.
    destruct (String.eqb_spec prefix "SHUTDOWN"); [subst; tauto|].
    destruct (String.eqb_spec prefix "INITIALIZE"); [subst; tauto|].
    destruct (String.eqb_spec prefix "TL_INTENSITY"); [subst; tauto|].
    destruct (String.eqb_spec prefix "SHUTTER_OPEN"); [subst; tauto|].
    reflexivity.
Qed.

(** ** The waiter on a silent line *)

(** C9 at a silent device.  The budget of 1000 at interval 10 pays for
    100 timer callbacks.  When they have passed the waiter the exchange
    started has neither returned a line nor thrown: its promise is
    pending for ever.  The ["timeout"] error was thrown, by the last
    recursive call, and that rejection reached no handler.  So an
    exchange with a silent device never ends, and the command that
    makes it is never answered. *)
Theorem waitForResponse_timeout_is_lost :
  polls 1000 default_interval_ms = 100%nat
  /\ waitForResponse (polls 1000 default_interval_ms)
       1000 default_interval_ms silent =
     Some (Pending, unhandledRejection "timeout" silent)
  /\ waitForResponse (polls 1000 default_interval_ms)
       1000 default_interval_ms silent <>
     Some (Throw "timeout", silent)
  /\ writeToPort "77020 0 0" silent =
     Some (Pending,
           unhandledRejection "timeout"
             (withSerial (mkSerial [wire "77020 0 0"] [] []) silent))
  /\ onData ("SHUTTER_OPEN 1" ++ LF) silent =
     Some (None,
           unhandledRejection "timeout"
             (withSerial (mkSerial [wire "77020 0 0"] [] [])
                (withState (store.mkState true 0) silent))).
Proof.
  split; [reflexivity|].
  split; [vm_compute; reflexivity|].
  split; [vm_compute; discriminate|].
  split; vm_compute; reflexivity.
Qed.

(** ** The theorems at concrete worlds *)


Ltac run := vm_compute; reflexivity.

Lemma executeCommand_dispatch_witness :
  (INITIALIZE <> SHUTDOWN
   /\ operationOf INITIALIZE faulty = Some (Ret ERROR, faulty3)
   /\ syncMicroscopeToState faulty3 = Some (Ret OK, faulty4)
   /\ executeCommand INITIALIZE faulty = Some (Ret ERROR, faulty4)
   /\ written (serial faulty4) =
      (written (serial faulty3) ++ [wire "77020 0 0"])%list)
  /\ (operationOf INITIALIZE (refusing "EIO") =
        Some (Throw "EIO", afterwards store.initial [wire "77025 0"] [])
      /\ executeCommand INITIALIZE (refusing "EIO") =
         Some (Throw "EIO", afterwards store.initial [wire "77025 0"] []))
  /\ (TL_INTENSITY 5 <> SHUTDOWN
      /\ operationOf (TL_INTENSITY 5) cold =
         Some (Ret OK, withState (store.mkState false 5) cold)
      /\ syncMicroscopeToState (withState (store.mkState false 5) cold) =
         Some (Throw "Trying to write to uninitialized port.",
               withState (store.mkState false 5) cold)
      /\ executeCommand (TL_INTENSITY 5) cold =
         Some (Throw "Trying to write to uninitialized port.",
               withState (store.mkState false 5) cold)).
Proof.
  assert (Hc : INITIALIZE <> SHUTDOWN) by discriminate.
  assert (Hc' : TL_INTENSITY 5 <> SHUTDOWN) by discriminate.
  assert (Ho : operationOf INITIALIZE faulty = Some (Ret ERROR, faulty3)) by run.
  assert (Hs : syncMicroscopeToState faulty3 = Some (Ret OK, faulty4)) by run.
  assert (Ht : operationOf INITIALIZE (refusing "EIO") =
               Some (Throw "EIO", afterwards store.initial [wire "77025 0"] []))
    by run.
  assert (Ho' : operationOf (TL_INTENSITY 5) cold =
                Some (Ret OK, withState (store.mkState false 5) cold)) by run.
  assert (Hs' : syncMicroscopeToState (withState (store.mkState false 5) cold) =
                Some (Throw "Trying to write to uninitialized port.",
                      withState (store.mkState false 5) cold)) by run.
  destruct executeCommand_dispatch as (_ & _ & _ & T & T5 & T6).
  destruct (T INITIALIZE faulty ERROR faulty3 OK faulty4 Hc Ho Hs) as [E W].
  split; [|split].
  - split; [exact Hc|]. split; [exact Ho|]. split; [exact Hs|].
    split; [exact E | exact W].
  - split; [exact Ht | exact (T5 INITIALIZE _ _ _ Hc Ht)].
  - split; [exact Hc'|]. split; [exact Ho'|]. split; [exact Hs'|].
    exact (T6 (TL_INTENSITY 5) _ _ _ _ _ Hc' Ho' Hs').
Defined.

Lemma initialize_sequence_witness :
  (nth_error setupExchanges 2 = Some ("77020 0 0", "77020")
   /\ writeToPort "77020 0 0"
        (afterwards store.initial [wire "77025 0"; wire "77005 0"]
           [["0"]; ["77020"]]) = Some (Ret "0", faulty3)
   /\ "0" <> "77020"
   /\ initialize faulty = Some (Ret ERROR, faulty3))
  /\ (answered setupExchanges (openPort echoing) echoing4
      /\ initialize echoing = syncMicroscopeToState echoing4).
Proof.
  destruct initialize_sequence as (T1 & T2 & _).
  assert (Hn : nth_error setupExchanges 2 = Some ("77020 0 0", "77020"))
    by reflexivity.
  assert (Ha : answered (firstn 2 setupExchanges) (openPort faulty)
                 (afterwards store.initial [wire "77025 0"; wire "77005 0"]
                    [["0"]; ["77020"]])).
  { simpl. eexists. split; [run|]. eexists. split; [run|]. run. }
  assert (Hx : writeToPort "77020 0 0"
                 (afterwards store.initial [wire "77025 0"; wire "77005 0"]
                    [["0"]; ["77020"]]) = Some (Ret "0", faulty3)) by run.
  assert (Hr : "0" <> "77020") by discriminate.
  assert (Hb : answered setupExchanges (openPort echoing) echoing4).
  { simpl. eexists. split; [run|]. eexists. split; [run|].
    eexists. split; [run|]. eexists. split; [run|]. run. }
  split.
  - split; [exact Hn|]. split; [exact Hx|]. split; [exact Hr|].
    exact (proj1 (T1 2%nat _ _ faulty _ _ _ Hn Ha Hx Hr)).
  - split; [exact Hb | exact (proj1 (T2 echoing echoing4 Hb))].
Defined.

Lemma initialize_command_six_exchanges_witness :
  executeCommand INITIALIZE echoing = Some (Ret OK, echoing6)
  /\ written (serial echoing6) =
     map wire ["77025 0"; "77005 0"; "77020 0 0"; "77032 0 1";
               "77020 0 0"; "77020 0 0"].
Proof.
  assert (H : executeCommand INITIALIZE echoing = Some (Ret OK, echoing6)) by run.
  split; [exact H|].
  exact (proj1 (initialize_command_six_exchanges echoing H)).
Defined.

Lemma no_rollback_on_sync_failure_witness :
  (writeToPort (syncLine (store.setIntensity 42 store.initial))
     (withState (store.setIntensity 42 store.initial)
        (ready store.initial [["?"]]))
   = Some (Ret "?", afterwards (store.mkState false 42) [wire "77020 0 0"] [])
   /\ "?" <> "77020"
   /\ executeCommand (TL_INTENSITY 42) (ready store.initial [["?"]])
      = Some (Ret ERROR,
              afterwards (store.mkState false 42) [wire "77020 0 0"] [])
   /\ store.intensity
        (_state (afterwards (store.mkState false 42) [wire "77020 0 0"] []))
      = 42)
  /\
  (writeToPort (syncLine (store.setShutter true (store.mkState false 42)))
     (withState (store.setShutter true (store.mkState false 42))
        (ready (store.mkState false 42) [["?"]]))
   = Some (Ret "?", afterwards (store.mkState true 42) [wire "77020 42 0"] [])
   /\ executeCommand (SHUTTER_OPEN true) (ready (store.mkState false 42) [["?"]])
      = Some (Ret ERROR,
              afterwards (store.mkState true 42) [wire "77020 42 0"] [])
   /\ store.shutterOpen
        (_state (afterwards (store.mkState true 42) [wire "77020 42 0"] []))
      = true).
Proof.
  destruct no_rollback_on_sync_failure as (T1 & T2).
  assert (Hr : "?" <> "77020") by discriminate.
  assert (H1 : writeToPort (syncLine (store.setIntensity 42 store.initial))
                 (withState (store.setIntensity 42 store.initial)
                    (ready store.initial [["?"]]))
               = Some (Ret "?",
                       afterwards (store.mkState false 42)
                         [wire "77020 0 0"] [])) by run.
  assert (H2 : writeToPort
                 (syncLine (store.setShutter true (store.mkState false 42)))
                 (withState (store.setShutter true (store.mkState false 42))
                    (ready (store.mkState false 42) [["?"]]))
               = Some (Ret "?",
                       afterwards (store.mkState true 42)
                         [wire "77020 42 0"] [])) by run.
  destruct (T1 42 (ready store.initial [["?"]]) _ _ H1 Hr) as (E1 & _ & L1).
  destruct (T2 true (ready (store.mkState false 42) [["?"]]) _ _ H2 Hr)
    as (E2 & _ & L2).
  split.
  - split; [exact H1|]. split; [exact Hr|]. split; [exact E1 | exact L1].
  - split; [exact H2|]. split; [exact E2 | exact L2].
Defined.

Lemma shutdown_one_exchange_witness :
  (_port (ready store.initial [["77005"]]) = true
   /\ writeToPort "77005 1" (ready store.initial [["77005"]])
      = Some (Ret "77005", afterwards store.initial [wire "77005 1"] [])
   /\ shutdown (ready store.initial [["77005"]])
      = Some (Ret OK,
              withPort false (afterwards store.initial [wire "77005 1"] [])))
  /\ (writeToPort "77005 1" (ready store.initial [["77020"]])
      = Some (Ret "77020", afterwards store.initial [wire "77005 1"] [])
      /\ "77020" <> "77005"
      /\ shutdown (ready store.initial [["77020"]])
         = Some (Ret ERROR, afterwards store.initial [wire "77005 1"] [])
      /\ _port (afterwards store.initial [wire "77005 1"] []) = true).
Proof.
  assert (H1 : writeToPort "77005 1" (ready store.initial [["77005"]])
               = Some (Ret "77005",
                       afterwards store.initial [wire "77005 1"] [])) by run.
  assert (H2 : writeToPort "77005 1" (ready store.initial [["77020"]])
               = Some (Ret "77020",
                       afterwards store.initial [wire "77005 1"] [])) by run.
  assert (Hr : "77020" <> "77005") by discriminate.
  destruct (shutdown_one_exchange (ready store.initial [["77005"]])
              eq_refl H1) as (A & _ & _).
  destruct (shutdown_one_exchange (ready store.initial [["77020"]])
              eq_refl H2) as (_ & B & _).
  split.
  - split; [reflexivity|]. split; [exact H1 | exact (proj1 (A eq_refl))].
  - destruct (B Hr) as [E P].
    split; [exact H2|]. split; [exact Hr|]. split; [exact E | exact P].
Defined.

Lemma intensity_always_in_range_witness :
  reachable uninitialised100
  /\ 0 <= store.intensity (_state uninitialised100) <= 255
  /\ parseCommand ("TL_INTENSITY 300" ++ LF) = ParseERROR
  /\ handleRequest ("TL_INTENSITY 300" ++ LF) uninitialised100
     = Some (Ret ERROR, uninitialised100).
Proof.
  destruct intensity_always_in_range as (_ & T & _ & _ & P).
  assert (R : reachable uninitialised100).
  { apply (@reachable_data (boot (mkSerial [] [] []))
             ("TL_INTENSITY 100" ++ LF) None).
    - apply reachable_boot.
    - run. }
  assert (E : parseCommand ("TL_INTENSITY 300" ++ LF) = ParseERROR) by run.
  split; [exact R|]. split; [exact (T _ R)|].
  split; [exact E | exact (P _ uninitialised100 E)].
Defined.

Lemma parseCommand_intensity_witness :
  (endsWith ("TL_INTENSITY 100" ++ LF) LF = true
   /\ tokens ("TL_INTENSITY 100" ++ LF) = ["TL_INTENSITY"; "100"]
   /\ parseCommand ("TL_INTENSITY 100" ++ LF) = Cmd (TL_INTENSITY 100))
  /\ (tokens ("TL_INTENSITY 1 2" ++ LF) = ["TL_INTENSITY"; "1"; "2"]
      /\ parseCommand ("TL_INTENSITY 1 2" ++ LF) = ParseERROR)
  /\ (decimalInteger "255" = Some 255
      /\ parseCommand ("TL_INTENSITY 255" ++ LF) = Cmd (TL_INTENSITY 255))
  /\ (decimalInteger "256" = Some 256
      /\ parseCommand ("TL_INTENSITY 256" ++ LF) = ParseERROR)
  /\ (decimalInteger "12" = Some 12
      /\ noWhiteSpace "abc" = true /\ startsWithDigit "abc" = false
      /\ parseCommand ("TL_INTENSITY 12abc" ++ LF) = Cmd (TL_INTENSITY 12))
  /\ (token "abc" /\ startsWithDigit (unsigned "abc") = false
      /\ parseCommand ("TL_INTENSITY abc" ++ LF) = ParseERROR).
Proof.
  destruct parseCommand_intensity as (T1 & T2 & T3 & T4 & T5).
  assert (Ht : token "abc") by (split; [discriminate | reflexivity]).
  split; [split; [reflexivity|]; split; [reflexivity|];
          exact (T1 ("TL_INTENSITY 100" ++ LF) "100" eq_refl eq_refl)|].
  split; [split; [reflexivity|];
          refine (T2 ("TL_INTENSITY 1 2" ++ LF) ["1"; "2"] eq_refl _);
          discriminate|].
  split; [split; [reflexivity | exact (T3 "255" 255 eq_refl)]|].
  split; [split; [reflexivity | exact (T3 "256" 256 eq_refl)]|].
  split; [split; [reflexivity|]; split; [reflexivity|]; split; [reflexivity|];
          exact (T4 "12" 12 "abc" eq_refl eq_refl eq_refl)|].
  split; [exact Ht|]. split; [reflexivity | exact (T5 "abc" Ht eq_refl)].
Defined.

Lemma parseCommand_shutter_witness :
  (endsWith "SHUTTER_OPEN 1" LF = false
   /\ parseCommand "SHUTTER_OPEN 1" = ParseERROR)
  /\ (tokens ("SHUTTER_OPEN 1" ++ CR ++ LF) = ["SHUTTER_OPEN"; "1"]
      /\ parseCommand ("SHUTTER_OPEN 1" ++ CR ++ LF) = Cmd (SHUTTER_OPEN true))
  /\ (token "0" /\ parseCommand ("SHUTTER_OPEN 0" ++ LF) = Cmd (SHUTTER_OPEN false))
  /\ (token "2" /\ parseCommand ("SHUTTER_OPEN 2" ++ LF) = ParseERROR)
  /\ (tokens ("SHUTTER_OPEN" ++ LF) = ["SHUTTER_OPEN"]
      /\ parseCommand ("SHUTTER_OPEN" ++ LF) = ParseERROR)
  /\ (tokens ("OPEN 1" ++ LF) = ["OPEN"; "1"]
      /\ parseCommand ("OPEN 1" ++ LF) = ParseERROR).
Proof.
  destruct parseCommand_shutter as (T1 & T2 & T3 & T4 & T5).
  assert (H0 : token "0") by (split; [discriminate | reflexivity]).
  assert (H2 : token "2") by (split; [discriminate | reflexivity]).
  split; [split; [reflexivity | exact (T1 "SHUTTER_OPEN 1" eq_refl)]|].
  split; [split; [reflexivity|];
          exact (proj1 (proj2 (T2 ("SHUTTER_OPEN 1" ++ CR ++ LF) "1"
                                  eq_refl eq_refl)) eq_refl)|].
  split; [split; [exact H0 | exact (proj1 (T3 "0" H0) eq_refl)]|].
  split; [split; [exact H2|];
          refine (proj2 (proj2 (T3 "2" H2)) _ _); discriminate|].
  split; [split; [reflexivity|];
          refine (T4 ("SHUTTER_OPEN" ++ LF) [] eq_refl _); discriminate|].
  split; [reflexivity|].
  refine (T5 ("OPEN 1" ++ LF) "OPEN" ["1"] eq_refl _).
  simpl. intros [H|[H|[H|[H|[]]]]]; discriminate H.
Defined.

(** * Further properties *)

(** ** The exchange at its edges *)

Lemma writeToPort_open message w :
  _port w = true ->
  writeToPort message w =
  match hd None (writeResults (serial w)) with
  | Some err => Some (Throw err, snd (portWrite (wire message) w))
  | None =>
      waitForResponse (polls 1000 default_interval_ms) 1000
        default_interval_ms (snd (portWrite (wire message) w))
  end.
Proof.
  intros Hp. unfold writeToPort. rewrite Hp. cbn [negb].
  unfold portWrite. cbv zeta. cbn [snd].
  destruct (hd None (writeResults (serial w))); reflexivity.
Qed.

Lemma portWrite_queue bytes w :
  _responseQueue (snd (portWrite bytes w)) =
  (_responseQueue w ++ hd [] (incoming (serial w)))%list.
Proof. unfold portWrite. cbn [snd]. rewrite suspend_queue. reflexivity. Qed.

(** X1. A line that is already in the queue when an exchange starts is
    taken as the answer of that exchange, whatever the device sends to
    it: the queue is not emptied before the write.  The answer of the
    device, if it comes during the write, is left in the queue behind
    the rest. *)
Theorem stale_line_answers_next_exchange message w r q :
  _port w = true ->
  hd None (writeResults (serial w)) = None ->
  _responseQueue w = r :: q ->
  exists w',
    writeToPort message w = Some (Ret r, w')
    /\ _responseQueue w' = (q ++ hd [] (incoming (serial w)))%list
    /\ written (serial w') = (written (serial w) ++ [wire message])%list.
Proof.
  intros Hp Hw Hq.
  rewrite (writeToPort_open _ _ Hp), Hw.
  assert (Hq' : _responseQueue (snd (portWrite (wire message) w)) =
                r :: (q ++ hd [] (incoming (serial w)))%list).
  { rewrite portWrite_queue, Hq. reflexivity. }
  rewrite (waitForResponse_queued _ _ _ _ Hq').
  eexists. split; [reflexivity|]. split; [reflexivity|].
  cbn [withQueue serial]. apply portWrite_frame.
Qed.

Lemma stale_line_answers_next_exchange_witness :
  _port (stale "77005" [["77020"]]) = true
  /\ exists w',
       writeToPort "77020 0 0" (stale "77005" [["77020"]]) =
       Some (Ret "77005", w')
       /\ _responseQueue w' = ["77020"]
       /\ written (serial w') = [wire "77020 0 0"].
Proof.
  split; [reflexivity|].
  exact (@stale_line_answers_next_exchange "77020 0 0"
           (stale "77005" [["77020"]]) "77005" [] eq_refl eq_refl eq_refl).
Defined.

(** X2. A wait that starts on an empty queue, at a positive interval,
    ends within the timer callbacks its budget pays for, and ends with
    the first line to arrive in that time.  When none arrives it is
    rejected with ["timeout"] only if the budget was already spent at
    the call; with budget left its promise stays pending. *)
Theorem waitForResponse_first_arrival maxWait interval w :
  0 < interval ->
  _responseQueue w = [] ->
  exists w',
    waitForResponse (polls maxWait interval) maxWait interval w =
    Some (match arrived (polls maxWait interval) w with
          | r :: _ => Ret r
          | [] => if maxWait <=? 0 then Throw "timeout" else Pending
          end, w')
    /\ sameSession w w'.
Proof.
  intros Hi Hq.
  destruct (waitForResponse_outcome Hi maxWait w eq_refl Hq) as (w' & Hw).
  exists w'. split; [exact Hw|].
  apply waitForResponse_frame in Hw. apply Hw.
Qed.

Lemma waitForResponse_first_arrival_witness :
  0 < 10
  /\ exists w',
       waitForResponse (polls 30 10) 30 10
         (ready store.initial [[]; []; ["late"; "later"]]) =
       Some (Ret "late", w')
       /\ sameSession (ready store.initial [[]; []; ["late"; "later"]]) w'.
Proof.
  split; [reflexivity|].
  exact (@waitForResponse_first_arrival 30 10
           (ready store.initial [[]; []; ["late"; "later"]]) eq_refl eq_refl).
Defined.

(** X3. At an interval of zero or less the budget never shrinks: on a
    line that stays silent a wait with budget left polls for ever,
    whatever number of timer callbacks it is given. *)
Theorem waitForResponse_nonpositive_interval fuel : forall maxWait interval w,
  interval <= 0 -> 0 < maxWait ->
  _responseQueue w = [] -> incoming (serial w) = [] ->
  waitForResponse fuel maxWait interval w = None.
Proof.
  induction fuel as [|fuel IH]; intros maxWait interval w Hi Hm Hq Hin.
  - simpl. rewrite Hq.
    destruct (maxWait <=? 0) eqn:E; [apply Z.leb_le in E; lia | reflexivity].
  - rewrite (waitForResponse_poll _ _ _ Hq Hm).
    assert (Hs : suspend w = w) by (unfold suspend; rewrite Hin; reflexivity).
    rewrite Hs, IH; [reflexivity | exact Hi | lia | exact Hq | exact Hin].
Qed.

Lemma waitForResponse_nonpositive_interval_witness :
  0 <= 0 /\ 0 < 1000 /\ waitForResponse 5000 1000 0 silent = None.
Proof.
  split; [lia|]. split; [lia|].
  apply waitForResponse_nonpositive_interval; [lia | lia | reflexivity | reflexivity].
Defined.

(** X4. When the port reports an error for the write, the exchange is
    rejected with that error at once: the line has been handed to the
    port, no line is waited for or taken from the queue, and the port
    handle is kept.  A synchronisation is rejected with it too. *)
Theorem write_error_rejects_exchange message w err :
  _port w = true ->
  hd None (writeResults (serial w)) = Some err ->
  exists w',
    writeToPort message w = Some (Throw err, w')
    /\ written (serial w') = (written (serial w) ++ [wire message])%list
    /\ _responseQueue w' =
       (_responseQueue w ++ hd [] (incoming (serial w)))%list
    /\ _port w' = true
    /\ (message = syncLine (_state w) ->
        syncMicroscopeToState w = Some (Throw err, w')).
Proof.
  intros Hp Hw. rewrite (writeToPort_open _ _ Hp), Hw.
  eexists. split; [reflexivity|].
  destruct (portWrite_frame (wire message) w) as [[Hp' _] Hwr].
  split; [exact Hwr|]. split; [apply portWrite_queue|].
  split; [congruence|].
  intros ->. rewrite syncMicroscopeToState_unfold.
  rewrite (writeToPort_open _ _ Hp), Hw. reflexivity.
Qed.

Lemma write_error_rejects_exchange_witness :
  _port (refusing "EIO") = true
  /\ exists w',
       writeToPort "77020 0 0" (refusing "EIO") = Some (Throw "EIO", w')
       /\ written (serial w') = [wire "77020 0 0"]
       /\ syncMicroscopeToState (refusing "EIO") = Some (Throw "EIO", w').
Proof.
  split; [reflexivity|].
  destruct (@write_error_rejects_exchange "77020 0 0" (refusing "EIO") "EIO"
              eq_refl eq_refl) as (w' & H1 & H2 & _ & _ & H5).
  exists w'. split; [exact H1|]. split; [exact H2 | exact (H5 eq_refl)].
Defined.

(** ** Commands without a port *)

Lemma withPort_same w : withPort (_port w) w = w.
Proof. destruct w; reflexivity. Qed.

Lemma setter_run command w :
  isSetter command = true ->
  operationOf command w =
  Some (Ret OK, withState (stateAfter command (_state w)) w).
Proof. destruct command; try discriminate; reflexivity. Qed.

Lemma setter_executeCommand command w :
  isSetter command = true ->
  executeCommand command w =
  match syncMicroscopeToState
          (withState (stateAfter command (_state w)) w) with
  | Some (Ret syncResult, w2) => Some (Ret syncResult, w2)
  | other => other
  end.
Proof.
  intros Hc. pose proof (setter_run command w Hc) as Hop.
  destruct command; try discriminate; cbn [operationOf] in Hop;
    unfold executeCommand; rewrite (afterSwitch_run _ _ Hop);
    destruct (syncMicroscopeToState _) as [[[[]|e|] w2]|]; reflexivity.
Qed.

(** X5. A [TL_INTENSITY] or [SHUTTER_OPEN] command that comes while no
    port is open changes the session state all the same, then is
    rejected on the missing port: nothing is handed to the serial line
    and the client is sent no answer, neither ["OK"] nor ["ERROR"]. *)
Theorem setter_without_port command data w :
  _port w = false ->
  isSetter command = true ->
  parseCommand data = Cmd command ->
  executeCommand command w =
    Some (Throw "Trying to write to uninitialized port.",
          withState (stateAfter command (_state w)) w)
  /\ onData data w =
     Some (None,
           unhandledRejection "Trying to write to uninitialized port."
             (withState (stateAfter command (_state w)) w)).
Proof.
  intros Hp Hc Hd.
  assert (He : executeCommand command w =
               Some (Throw "Trying to write to uninitialized port.",
                     withState (stateAfter command (_state w)) w)).
  { rewrite (setter_executeCommand _ w Hc), syncMicroscopeToState_unfold.
    rewrite writeToPort_closed by exact Hp. reflexivity. }
  split; [exact He|].
  unfold onData, handleRequest. rewrite Hd, He. reflexivity.
Qed.

Lemma setter_without_port_witness :
  _port cold = false
  /\ parseCommand ("TL_INTENSITY 100" ++ LF) = Cmd (TL_INTENSITY 100)
  /\ onData ("TL_INTENSITY 100" ++ LF) cold = Some (None, uninitialised100).
Proof.
  split; [reflexivity|]. split; [reflexivity|].
  exact (proj2 (@setter_without_port (TL_INTENSITY 100)
                  ("TL_INTENSITY 100" ++ LF) cold eq_refl eq_refl eq_refl)).
Defined.

Lemma shutdown_OK_port w w' :
  shutdown w = Some (Ret OK, w') -> _port w' = false.
Proof.
  rewrite shutdown_unfold. destruct (_port w).
  - destruct (writeToPort "77005 1" w) as [[[r|e|] w1]|]; try discriminate.
    destruct (r =? "77005")%string; intros H; inversion H; reflexivity.
  - intros H; inversion H; reflexivity.
Qed.

(** X6. A [SHUTDOWN] that comes while no port is open returns ["OK"]
    and touches nothing: no line is sent and the world is as before.
    So after a shutdown that returned ["OK"], any further [SHUTDOWN]
    returns ["OK"] without reaching the device. *)
Theorem shutdown_without_port :
  (forall w,
      _port w = false -> executeCommand SHUTDOWN w = Some (Ret OK, w))
  /\
  (forall w w',
      executeCommand SHUTDOWN w = Some (Ret OK, w') ->
      executeCommand SHUTDOWN w' = Some (Ret OK, w')).
Proof.
  assert (H0 : forall w, _port w = false ->
                         executeCommand SHUTDOWN w = Some (Ret OK, w)).
  { intros w Hp. cbn [executeCommand]. rewrite shutdown_unfold, Hp.
    rewrite <- Hp, withPort_same. reflexivity. }
  split; [exact H0|].
  intros w w' H. apply H0. apply (shutdown_OK_port w). exact H.
Qed.

Lemma shutdown_without_port_witness :
  _port cold = false
  /\ executeCommand SHUTDOWN cold = Some (Ret OK, cold)
  /\ executeCommand SHUTDOWN (ready store.initial [["77005"]]) =
     Some (Ret OK, withPort false (afterwards store.initial [wire "77005 1"] []))
  /\ executeCommand SHUTDOWN
       (withPort false (afterwards store.initial [wire "77005 1"] [])) =
     Some (Ret OK, withPort false (afterwards store.initial [wire "77005 1"] [])).
Proof.
  destruct shutdown_without_port as [T1 T2].
  assert (H : executeCommand SHUTDOWN (ready store.initial [["77005"]]) =
              Some (Ret OK,
                    withPort false
                      (afterwards store.initial [wire "77005 1"] [])))
    by (vm_compute; reflexivity).
  split; [reflexivity|]. split; [exact (T1 cold eq_refl)|].
  split; [exact H | exact (T2 _ _ H)].
Defined.

(** ** What a command does to the session state and the port *)

Section Frames.

Context {A B : Type}.
Variable R : World -> World -> Prop.
Hypothesis R_refl : forall w, R w w.
Hypothesis R_trans : forall w1 w2 w3, R w1 w2 -> R w2 w3 -> R w1 w3.

Lemma frames_ret (a : A) : frames R (ret a).
Proof. intros w o w' H. inversion H; subst. apply R_refl. Qed.

Lemma frames_bind (m : M A) (k : A -> M B) :
  frames R m -> (forall a, frames R (k a)) -> frames R (bind m k).
Proof.
  intros Hm Hk w o w'. unfold bind.
  destruct (m w) as [[[a|e|] w1]|] eqn:E; try discriminate.
  - intros H. apply Hk in H. apply Hm in E. eapply R_trans; eassumption.
  - intros H. inversion H; subst. eapply Hm; eassumption.
  - intros H. inversion H; subst. eapply Hm; eassumption.
Qed.

End Frames.

Lemma frames_expectAll (R : World -> World -> Prop) rest
      (R_refl : forall w, R w w)
      (R_trans : forall w1 w2 w3, R w1 w2 -> R w2 w3 -> R w1 w3) :
  forall steps,
    (forall line code, In (line, code) steps -> frames R (writeToPort line)) ->
    frames R rest -> frames R (expectAll steps rest).
Proof.
  induction steps as [|[line code] steps IH]; intros Hs Hr; [exact Hr|].
  cbn [expectAll]. unfold expect.
  apply frames_bind; [exact R_trans | apply (Hs line code); left; reflexivity|].
  intros r. destruct (negb (r =? code)%string).
  - apply frames_ret. exact R_refl.
  - apply IH; [|exact Hr]. intros l c Hin. apply (Hs l c). right. exact Hin.
Qed.

Lemma frames_sameSession_writeToPort message :
  frames sameSession (writeToPort message).
Proof. intros w o w' H. apply writeToPort_frame in H. apply H. Qed.

Lemma frames_sameSession_sync : frames sameSession syncMicroscopeToState.
Proof. intros w o w' H. apply syncMicroscopeToState_frame in H. apply H. Qed.

Lemma afterSync_frames (R : World -> World -> Prop) (result : Response) :
  frames R syncMicroscopeToState ->
  frames R (syncResult <- syncMicroscopeToState ;;
            ret (match syncResult with ERROR => syncResult | OK => result end)).
Proof.
  intros Hs w o w'. unfold bind, ret.
  destruct (syncMicroscopeToState w) as [[[sr|e|] w1]|] eqn:E; try discriminate;
    intros H; inversion H; subst; eapply Hs; eassumption.
Qed.

Lemma initialize_port w o w' : initialize w = Some (o, w') -> _port w' = true.
Proof.
  rewrite initialize_steps. intros H.
  assert (Hf : frames sameSession (expectAll setupExchanges syncMicroscopeToState)).
  { apply frames_expectAll;
      [exact sameSession_refl | exact sameSession_trans | |
       exact frames_sameSession_sync].
    intros line code _. apply frames_sameSession_writeToPort. }
  apply Hf in H. destruct H as [Hp _]. rewrite Hp.
  unfold openPort. destruct (_port w) eqn:E; [exact E | reflexivity].
Qed.

(** X7. The session state a command leaves is fixed by the command and
    the state it found, whatever the device does and however the
    command ends: [TL_INTENSITY] has stored its level and
    [SHUTTER_OPEN] its flag, [INITIALIZE] and [SHUTDOWN] have kept the
    state, so that an initialisation never resets it. *)
Theorem session_state_after_command command w o w' :
  executeCommand command w = Some (o, w') ->
  _state w' =
    match command with
    | TL_INTENSITY level => store.mkState (store.shutterOpen (_state w)) level
    | SHUTTER_OPEN state => store.mkState state (store.intensity (_state w))
    | INITIALIZE | SHUTDOWN => _state w
    end.
Proof.
  intros H. apply executeCommand_state in H. rewrite H.
  destruct command; reflexivity.
Qed.

Lemma session_state_after_command_witness :
  executeCommand INITIALIZE (ready lit100 []) =
    Some (Pending,
          unhandledRejection "timeout"
            (afterwards lit100 [wire "77025 0"] []))
  /\ _state (unhandledRejection "timeout"
               (afterwards lit100 [wire "77025 0"] [])) = lit100.
Proof.
  assert (H : executeCommand INITIALIZE (ready lit100 []) =
              Some (Pending,
                    unhandledRejection "timeout"
                      (afterwards lit100 [wire "77025 0"] [])))
    by (vm_compute; reflexivity).
  split; [exact H | exact (session_state_after_command _ _ H)].
Defined.

(** X8. However an [INITIALIZE] ends, be it ["OK"], ["ERROR"], a
    rejection or a promise left pending, the port handle is set
    afterwards; a [TL_INTENSITY] or [SHUTTER_OPEN] leaves the handle as
    it found it; and a [SHUTDOWN] clears it exactly when it returns
    ["OK"]. *)
Theorem port_after_command command w o w' :
  executeCommand command w = Some (o, w') ->
  _port w' =
    match command with
    | INITIALIZE => true
    | TL_INTENSITY _ | SHUTTER_OPEN _ => _port w
    | SHUTDOWN => match o with Ret OK => false | _ => _port w end
    end.
Proof.
  assert (Hrest : forall result : Response,
             frames sameSession
               (syncResult <- syncMicroscopeToState ;;
                ret (match syncResult with
                     | ERROR => syncResult | OK => result end))).
  { intros result. apply afterSync_frames. exact frames_sameSession_sync. }
  destruct command; unfold executeCommand.
  - unfold bind at 1.
    destruct (initialize w) as [[[result|e|] w1]|] eqn:E; try discriminate.
    + intros H. apply Hrest in H. destruct H as [Hp _].
      rewrite Hp. eapply initialize_port; eassumption.
    + intros H. inversion H; subst. eapply initialize_port; eassumption.
    + intros H. inversion H; subst. eapply initialize_port; eassumption.
  - rewrite shutdown_unfold. destruct (_port w) eqn:Ep.
    + destruct (writeToPort "77005 1" w) as [[[r|e|] w1]|] eqn:E;
        try discriminate.
      * apply writeToPort_frame in E. destruct E as [[Hp _] _].
        destruct (r =? "77005")%string; intros H; inversion H; subst;
          [reflexivity | congruence].
      * apply writeToPort_frame in E. destruct E as [[Hp _] _].
        intros H; inversion H; subst. congruence.
      * apply writeToPort_frame in E. destruct E as [[Hp _] _].
        intros H; inversion H; subst. congruence.
    + intros H; inversion H; subst. reflexivity.
  - unfold bind at 1. rewrite setIntensity_run. intros H.
    apply Hrest in H. apply H.
  - unfold bind at 1. rewrite setShutterState_run. intros H.
    apply Hrest in H. apply H.
Qed.

Lemma port_after_command_witness :
  executeCommand INITIALIZE faulty = Some (Ret ERROR, faulty4)
  /\ _port faulty = false /\ _port faulty4 = true.
Proof.
  assert (H : executeCommand INITIALIZE faulty = Some (Ret ERROR, faulty4))
    by (vm_compute; reflexivity).
  split; [exact H|]. split; [reflexivity|].
  exact (port_after_command _ _ H).
Defined.

(** ** The emulated shutter *)

(** What a [TL_INTENSITY] or [SHUTTER_OPEN] hands to an open port,
    however it ends: the line of the state it has just stored. *)
Lemma setter_written command w o w' :
  isSetter command = true ->
  _port w = true ->
  executeCommand command w = Some (o, w') ->
  written (serial w') =
    (written (serial w) ++ [wire (syncLine (stateAfter command (_state w)))])%list
  /\ _port w' = true
  /\ _state w' = stateAfter command (_state w).
Proof.
  intros Hc Hp H. pose proof (executeCommand_state _ _ H) as Hs.
  rewrite (setter_executeCommand _ w Hc) in H.
  destruct (syncMicroscopeToState (withState (stateAfter command (_state w)) w))
    as [[o1 w1]|] eqn:E; [|discriminate].
  apply syncMicroscopeToState_frame in E. destruct E as [[Hp1 _] Hw].
  cbn [withState _port _state serial] in Hp1, Hw. rewrite Hp in Hw.
  destruct o1; inversion H; subst; repeat split; congruence.
Qed.

(** X9. Closing the shutter and opening it again, on an open port,
    sends the device ["77020 0 0"] and then the intensity line of the
    level the session held before, and leaves the session with that
    level and the shutter open: the level survives the closing.  This
    holds whatever the device answers. *)
Theorem shutter_close_then_open_restores w o1 w1 o2 w2 :
  _port w = true ->
  executeCommand (SHUTTER_OPEN false) w = Some (o1, w1) ->
  executeCommand (SHUTTER_OPEN true) w1 = Some (o2, w2) ->
  written (serial w2) =
    (written (serial w)
     ++ [wire "77020 0 0";
         wire ("77020 " ++ toString (store.intensity (_state w)) ++ " 0")])%list
  /\ _state w2 = store.mkState true (store.intensity (_state w)).
Proof.
  intros Hp H1 H2.
  destruct (setter_written (SHUTTER_OPEN false) w eq_refl Hp H1)
    as (Hw1 & Hp1 & Hs1).
  destruct (setter_written (SHUTTER_OPEN true) w1 eq_refl Hp1 H2)
    as (Hw2 & _ & Hs2).
  rewrite Hw2, Hw1, Hs2, Hs1, <- app_assoc. split; reflexivity.
Qed.

Lemma shutter_close_then_open_restores_witness :
  executeCommand (SHUTTER_OPEN false) (twice lit100) =
    Some (Ret OK,
          afterwards (store.mkState false 100) [wire "77020 0 0"] [["77020"]])
  /\ executeCommand (SHUTTER_OPEN true)
       (afterwards (store.mkState false 100) [wire "77020 0 0"] [["77020"]]) =
     Some (Ret OK,
           afterwards lit100 [wire "77020 0 0"; wire "77020 100 0"] [])
  /\ written (serial (afterwards lit100
                        [wire "77020 0 0"; wire "77020 100 0"] [])) =
     [wire "77020 0 0"; wire "77020 100 0"].
Proof.
  assert (H1 : executeCommand (SHUTTER_OPEN false) (twice lit100) =
               Some (Ret OK,
                     afterwards (store.mkState false 100)
                       [wire "77020 0 0"] [["77020"]]))
    by (vm_compute; reflexivity).
  assert (H2 : executeCommand (SHUTTER_OPEN true)
                 (afterwards (store.mkState false 100)
                    [wire "77020 0 0"] [["77020"]]) =
               Some (Ret OK,
                     afterwards lit100
                       [wire "77020 0 0"; wire "77020 100 0"] []))
    by (vm_compute; reflexivity).
  split; [exact H1|]. split; [exact H2|].
  exact (proj1 (@shutter_close_then_open_restores (twice lit100) _ _ _ _
                  eq_refl H1 H2)).
Defined.

(** X10. An intensity set while the shutter is closed is stored but not
    shown: the device is sent ["77020 0 0"].  It is sent the level
    when the shutter is opened next. *)
Theorem intensity_set_while_closed level w o1 w1 o2 w2 :
  _port w = true ->
  store.shutterOpen (_state w) = false ->
  executeCommand (TL_INTENSITY level) w = Some (o1, w1) ->
  executeCommand (SHUTTER_OPEN true) w1 = Some (o2, w2) ->
  written (serial w1) = (written (serial w) ++ [wire "77020 0 0"])%list
  /\ store.intensity (_state w1) = level
  /\ written (serial w2) =
     (written (serial w1) ++ [wire ("77020 " ++ toString level ++ " 0")])%list.
Proof.
  intros Hp Hc H1 H2.
  destruct (setter_written (TL_INTENSITY level) w eq_refl Hp H1)
    as (Hw1 & Hp1 & Hs1).
  destruct (setter_written (SHUTTER_OPEN true) w1 eq_refl Hp1 H2)
    as (Hw2 & _ & _).
  cbn [stateAfter] in Hw1, Hs1, Hw2.
  unfold syncLine, store.setIntensity in Hw1. cbn [store.shutterOpen] in Hw1.
  rewrite Hc in Hw1.
  split; [exact Hw1|]. split; [rewrite Hs1; reflexivity|].
  rewrite Hw2, Hs1. reflexivity.
Qed.

Lemma intensity_set_while_closed_witness :
  executeCommand (TL_INTENSITY 100) (twice store.initial) =
    Some (Ret OK,
          afterwards (store.mkState false 100) [wire "77020 0 0"] [["77020"]])
  /\ executeCommand (SHUTTER_OPEN true)
       (afterwards (store.mkState false 100) [wire "77020 0 0"] [["77020"]]) =
     Some (Ret OK,
           afterwards lit100 [wire "77020 0 0"; wire "77020 100 0"] [])
  /\ written (serial (afterwards lit100
                        [wire "77020 0 0"; wire "77020 100 0"] [])) =
     [wire "77020 0 0"; wire "77020 100 0"].
Proof.
  assert (H1 : executeCommand (TL_INTENSITY 100) (twice store.initial) =
               Some (Ret OK,
                     afterwards (store.mkState false 100)
                       [wire "77020 0 0"] [["77020"]]))
    by (vm_compute; reflexivity).
  assert (H2 : executeCommand (SHUTTER_OPEN true)
                 (afterwards (store.mkState false 100)
                    [wire "77020 0 0"] [["77020"]]) =
               Some (Ret OK,
                     afterwards lit100
                       [wire "77020 0 0"; wire "77020 100 0"] []))
    by (vm_compute; reflexivity).
  split; [exact H1|]. split; [exact H2|].
  exact (proj2 (proj2 (@intensity_set_while_closed 100 (twice store.initial)
                         _ _ _ _ eq_refl eq_refl H1 H2))).
Defined.

(** ** The lines on the wire *)

Lemma onlyAllowed_refl w : onlyAllowed w w.
Proof.
  split; [reflexivity|]. exists []. split; [now rewrite app_nil_r|].
  intros _. constructor.
Qed.

Lemma onlyAllowed_trans w1 w2 w3 :
  onlyAllowed w1 w2 -> onlyAllowed w2 w3 -> onlyAllowed w1 w3.
Proof.
  intros (Hs1 & n1 & Hw1 & Ha1) (Hs2 & n2 & Hw2 & Ha2).
  split; [congruence|]. exists (n1 ++ n2)%list.
  split; [rewrite Hw2, Hw1, app_assoc; reflexivity|].
  intros Hr. apply Forall_app. split; [apply Ha1; exact Hr|].
  apply Ha2. unfold inRange in *. rewrite Hs1. exact Hr.
Qed.

Lemma allowedLine_fixed message :
  In message ["77025 0"; "77005 0"; "77005 1"; "77020 0 0"; "77032 0 1"] ->
  allowedLine (wire message).
Proof. intros H. left. apply in_map. exact H. Qed.

Lemma allowedLine_syncLine s :
  0 <= store.intensity s <= 255 -> allowedLine (wire (syncLine s)).
Proof.
  intros H. unfold syncLine. destruct (store.shutterOpen s).
  - right. exists (store.intensity s). split; [exact H | reflexivity].
  - apply allowedLine_fixed. simpl. tauto.
Qed.

Lemma frames_onlyAllowed_writeToPort message :
  allowedLine (wire message) -> frames onlyAllowed (writeToPort message).
Proof.
  intros Ha w o w' H. apply writeToPort_frame in H. destruct H as [[_ Hs] Hw].
  split; [exact Hs|]. destruct (_port w).
  - exists [wire message]. split; [exact Hw|]. intros _. constructor; [exact Ha|constructor].
  - exists []. split; [now rewrite app_nil_r|]. intros _. constructor.
Qed.

Lemma frames_onlyAllowed_sync : frames onlyAllowed syncMicroscopeToState.
Proof.
  intros w o w' H. apply syncMicroscopeToState_frame in H.
  destruct H as [[_ Hs] Hw]. split; [exact Hs|]. destruct (_port w).
  - exists [wire (syncLine (_state w))]. split; [exact Hw|].
    intros Hr. constructor; [apply allowedLine_syncLine; exact Hr | constructor].
  - exists []. split; [now rewrite app_nil_r|]. intros _. constructor.
Qed.

Lemma frames_onlyAllowed_after (result : Response) :
  frames onlyAllowed
    (syncResult <- syncMicroscopeToState ;;
     ret (match syncResult with ERROR => syncResult | OK => result end)).
Proof. apply afterSync_frames. exact frames_onlyAllowed_sync. Qed.

Lemma onlyAllowed_session w w' :
  _state w' = _state w -> written (serial w') = written (serial w) ->
  onlyAllowed w w'.
Proof.
  intros Hs Hw. split; [exact Hs|]. exists [].
  split; [rewrite app_nil_r; exact Hw|]. intros _. constructor.
Qed.

Lemma frames_onlyAllowed_initialize : frames onlyAllowed initialize.
Proof.
  intros w o w' H. rewrite initialize_steps in H.
  apply (onlyAllowed_trans (w2 := openPort w)).
  - apply onlyAllowed_session; [apply openPort_state | apply openPort_written].
  - revert H. apply frames_expectAll;
      [exact onlyAllowed_refl | exact onlyAllowed_trans | |
       exact frames_onlyAllowed_sync].
    intros line code Hin. apply frames_onlyAllowed_writeToPort.
    apply allowedLine_fixed. simpl in Hin |- *.
    destruct Hin as [E|[E|[E|[E|[]]]]]; inversion E; subst; tauto.
Qed.

Lemma frames_onlyAllowed_shutdown : frames onlyAllowed shutdown.
Proof.
  intros w o w' H. apply shutdown_frame in H. destruct H as [Hs Hw].
  split; [exact Hs|]. destruct (_port w).
  - exists [wire "77005 1"]. split; [exact Hw|]. intros _.
    constructor; [apply allowedLine_fixed; simpl; tauto | constructor].
  - exists []. split; [now rewrite app_nil_r|]. intros _. constructor.
Qed.

(** One chunk of data, from a world whose intensity is in range. *)
Lemma onData_allowed data w answer w' :
  inRange w -> onData data w = Some (answer, w') ->
  inRange w'
  /\ exists new,
       written (serial w') = (written (serial w) ++ new)%list
       /\ Forall allowedLine new.
Proof.
  intros Hr H.
  assert (Hh : forall o w1, handleRequest data w = Some (o, w1) ->
               inRange w1 /\ exists new,
                 written (serial w1) = (written (serial w) ++ new)%list
                 /\ Forall allowedLine new).
  { intros o w1 Hh. split; [eapply handleRequest_inRange; eassumption|].
    unfold handleRequest in Hh.
    destruct (parseCommand data) as [command|] eqn:Ep.
    - assert (Hgo : forall m : M Response, frames onlyAllowed m ->
                 m w = Some (o, w1) ->
                 exists new, written (serial w1) = (written (serial w) ++ new)%list
                             /\ Forall allowedLine new).
      { intros m Hm Hrun. apply Hm in Hrun.
        destruct Hrun as (_ & new & Hw & Ha). exists new. auto. }
      destruct command; unfold executeCommand in Hh.
      + revert Hh. apply Hgo. apply frames_bind;
          [exact onlyAllowed_trans | exact frames_onlyAllowed_initialize |
           exact frames_onlyAllowed_after].
      + revert Hh. apply Hgo. exact frames_onlyAllowed_shutdown.
      + unfold bind at 1 in Hh. rewrite setIntensity_run in Hh.
        apply frames_onlyAllowed_after in Hh.
        destruct Hh as (_ & new & Hw & Ha). exists new. split; [exact Hw|].
        apply Ha. unfold inRange. cbn [withState _state store.setIntensity store.intensity].
        apply parseCommand_level in Ep. exact Ep.
      + unfold bind at 1 in Hh. rewrite setShutterState_run in Hh.
        apply frames_onlyAllowed_after in Hh.
        destruct Hh as (_ & new & Hw & Ha). exists new. split; [exact Hw|].
        apply Ha. exact Hr.
    - inversion Hh; subst. exists []. split; [now rewrite app_nil_r | constructor]. }
  unfold onData in H.
  destruct (handleRequest data w) as [[o w1]|] eqn:E; [|discriminate].
  destruct (Hh o w1 eq_refl) as [Hr1 Hn1].
  destruct o; inversion H; subst; split; assumption.
Qed.

(** X11. Whatever the clients send and whatever the device answers,
    from a world whose intensity is in range the program hands the port
    nothing but the lines ["77025 0"], ["77005 0"], ["77005 1"],
    ["77020 0 0"], ["77032 0 1"] and ["77020 {i} 0"] with [i] from 0 to
    255, each ended by a carriage return.  In particular the shutter of
    the device is never closed: ["77032 0 0"] is not among them. *)
Theorem only_allowed_lines_on_the_wire :
  (forall w w',
      leadsTo w w' -> inRange w ->
      exists new,
        written (serial w') = (written (serial w) ++ new)%list
        /\ Forall allowedLine new)
  /\ ~ allowedLine (wire "77032 0 0").
Proof.
  split.
  - intros w w' H Hr.
    assert (G : inRange w' /\ exists new,
                 written (serial w') = (written (serial w) ++ new)%list
                 /\ Forall allowedLine new).
    { induction H as [w|w w1 data answer w' H IH Hd|w w1 H IH].
      - split; [exact Hr|]. exists []. split; [now rewrite app_nil_r | constructor].
      - destruct (IH Hr) as (Hr1 & n1 & Hw1 & Ha1).
        destruct (onData_allowed _ Hr1 Hd) as (Hr' & n2 & Hw2 & Ha2).
        split; [exact Hr'|]. exists (n1 ++ n2)%list.
        split; [rewrite Hw2, Hw1, app_assoc; reflexivity|].
        apply Forall_app. split; assumption.
      - destruct (IH Hr) as (Hr1 & n1 & Hw1 & Ha1).
        split; [unfold inRange; rewrite (proj2 (suspend_session w1)); exact Hr1|].
        exists n1. split; [rewrite suspend_written; exact Hw1 | exact Ha1]. }
    apply G.
  - intros [H|(i & _ & H)].
    + simpl in H. destruct H as [H|[H|[H|[H|[H|[]]]]]]; discriminate H.
    + unfold wire in H. cbn [append] in H. discriminate H.
Qed.

Lemma only_allowed_lines_on_the_wire_witness :
  leadsTo echoing echoing6
  /\ inRange echoing
  /\ exists new,
       written (serial echoing6) = (written (serial echoing) ++ new)%list
       /\ Forall allowedLine new.
Proof.
  assert (L : leadsTo echoing echoing6).
  { apply (@leadsTo_data echoing echoing ("INITIALIZE" ++ LF) (Some ("OK" ++ LF))).
    - apply leadsTo_here.
    - vm_compute; reflexivity. }
  assert (R : inRange echoing) by (unfold inRange; simpl; lia).
  split; [exact L|]. split; [exact R|].
  exact (proj1 only_allowed_lines_on_the_wire _ _ L R).
Defined.

(** ** More of the parser *)

Lemma allWhiteSpace_app s t :
  allWhiteSpace (s ++ t) = allWhiteSpace s && allWhiteSpace t.
Proof.
  induction s as [|c s IH]; simpl; [reflexivity|].
  rewrite IH. now rewrite andb_assoc.
Qed.

Lemma trimStart_allWhiteSpace ws s :
  allWhiteSpace ws = true -> trimStart (ws ++ s) = trimStart s.
Proof.
  induction ws as [|c ws IH]; [reflexivity|]. simpl. intros H.
  apply andb_prop in H. destruct H as [Hc Hws]. rewrite Hc. apply IH, Hws.
Qed.

Lemma trimEnd_allWhiteSpace t : allWhiteSpace t = true -> trimEnd t = "".
Proof.
  induction t as [|c t IH]; [reflexivity|]. simpl. intros H.
  apply andb_prop in H. destruct H as [Hc Ht]. rewrite (IH Ht), Hc. reflexivity.
Qed.

Lemma trimEnd_app_allWhiteSpace s t :
  allWhiteSpace t = true -> trimEnd (s ++ t) = trimEnd s.
Proof.
  intros Ht. induction s as [|c s IH].
  - simpl. apply trimEnd_allWhiteSpace, Ht.
  - simpl. rewrite IH. reflexivity.
Qed.

Lemma trimStart_joinSpace ts t :
  Forall token ts -> ts <> [] ->
  trimStart (joinSpace ts ++ t) = joinSpace ts ++ t.
Proof.
  intros H Hne. destruct H as [|a ts Ha Hts]; [congruence|].
  destruct ts as [|b ts'].
  - simpl. apply trimStart_token, Ha.
  - rewrite joinSpace_cons by discriminate.
    rewrite append_assoc. apply trimStart_token, Ha.
Qed.

Lemma parseCommand_same_tokens line line' :
  endsWith line LF = true -> endsWith line' LF = true ->
  tokens line = tokens line' -> parseCommand line = parseCommand line'.
Proof.
  intros H H' Ht.
  rewrite (parseCommand_tokens _ H), (parseCommand_tokens _ H'), Ht.
  reflexivity.
Qed.

(** X12. White space around a command does not count: a line of
    tokens joined by single spaces, with any white space before it and
    any white space, a carriage return for one, between it and the
    closing line feed, is split into those very tokens and parsed as
    the bare line is. *)
Theorem parseCommand_ignores_outer_white_space ts ws1 ws2 :
  Forall token ts -> ts <> [] ->
  allWhiteSpace ws1 = true -> allWhiteSpace ws2 = true ->
  tokens (ws1 ++ joinSpace ts ++ ws2 ++ LF) = ts
  /\ parseCommand (ws1 ++ joinSpace ts ++ ws2 ++ LF) =
     parseCommand (joinSpace ts ++ LF).
Proof.
  intros Hts Hne H1 H2.
  assert (Ht : tokens (ws1 ++ joinSpace ts ++ ws2 ++ LF) = ts).
  { unfold tokens, trim.
    rewrite (trimStart_allWhiteSpace _ _ H1).
    rewrite (trimStart_joinSpace _ Hts Hne).
    rewrite trimEnd_app_allWhiteSpace
      by (rewrite allWhiteSpace_app, H2; reflexivity).
    rewrite (trimEnd_joinSpace Hts).
    apply split_space_joinSpace; assumption. }
  split; [exact Ht|].
  destruct (tokens_joinSpace Hts Hne) as [He Ht'].
  apply parseCommand_same_tokens; [|exact He | congruence].
  replace (ws1 ++ joinSpace ts ++ ws2 ++ LF)
    with ((ws1 ++ joinSpace ts ++ ws2) ++ LF)
    by (rewrite !append_assoc; reflexivity).
  apply endsWith_LF.
Qed.

Lemma parseCommand_ignores_outer_white_space_witness :
  Forall token ["SHUTTER_OPEN"; "1"]
  /\ allWhiteSpace " " = true /\ allWhiteSpace CR = true
  /\ parseCommand (" " ++ "SHUTTER_OPEN 1" ++ CR ++ LF) =
     parseCommand ("SHUTTER_OPEN 1" ++ LF).
Proof.
  assert (H : Forall token ["SHUTTER_OPEN"; "1"]).
  { apply Forall_cons; [exact token_SHUTTER_OPEN|].
    apply Forall_cons; [split; [discriminate | reflexivity] | apply Forall_nil]. }
  split; [exact H|]. split; [reflexivity|]. split; [reflexivity|].
  refine (proj2 (@parseCommand_ignores_outer_white_space
                   ["SHUTTER_OPEN"; "1"] " " CR H _ eq_refl eq_refl)).
  discriminate.
Defined.

Lemma noWhiteSpace_noSpace s : noWhiteSpace s = true -> noSpace s = true.
Proof.
  induction s as [|c s IH]; [reflexivity|]. simpl. intros H.
  apply andb_prop in H. destruct H as [Hc Hs].
  apply negb_true_iff in Hc. rewrite (isWhiteSpace_space_eqb _ Hc), (IH Hs).
  reflexivity.
Qed.

Lemma noSpace_app s t : noSpace (s ++ t) = noSpace s && noSpace t.
Proof.
  induction s as [|c s IH]; simpl; [reflexivity|].
  rewrite IH. now rewrite andb_assoc.
Qed.

Lemma split_space_cons s : exists h tl, split_space s = h :: tl.
Proof.
  induction s as [|c s (h & tl & IH)]; simpl; [eauto|].
  destruct (Ascii.eqb c " "); [eauto|]. rewrite IH. eauto.
Qed.

(** Before the first space, the first piece only grows. *)
Lemma split_space_head p s :
  noSpace p = true -> exists h tl, split_space (p ++ s) = (p ++ h) :: tl.
Proof.
  induction p as [|c p IH]; intros H.
  - simpl. apply split_space_cons.
  - simpl in H. apply andb_prop in H. destruct H as [Hc Hp].
    apply negb_true_iff in Hc.
    destruct (IH Hp) as (h & tl & E).
    cbn [append split_space]. rewrite Hc, E. eauto.
Qed.

Lemma trimEnd_head c s :
  isWhiteSpace c = false -> trimEnd (String c s) <> "".
Proof.
  intros Hc. simpl. destruct (trimEnd s); [rewrite Hc|]; discriminate.
Qed.

Lemma parseCommand_prefix_with_white_space line prefix args :
  tokens line = prefix :: args -> noWhiteSpace prefix = false ->
  parseCommand line = ParseERROR.
Proof.
  intros Ht Hp.
  destruct (endsWith line LF) eqn:E; [|apply parseCommand_no_LF; exact E].
  rewrite (parseCommand_tokens _ E), Ht.
  assert (Hn : forall name, noWhiteSpace name = true ->
                            (prefix =? name)%string = false).
  { intros name Hname. apply String.eqb_neq. intros ->. congruence. }
  rewrite !Hn by reflexivity. reflexivity.
Qed.

Lemma split_space_noSpace s : noSpace s = true -> split_space s = [s].
Proof.
  induction s as [|c s IH]; [reflexivity|]. simpl. intros H.
  apply andb_prop in H. destruct H as [Hc Hs].
  apply negb_true_iff in Hc. rewrite Hc, (IH Hs). reflexivity.
Qed.

(** One argument that may hold white space other than a space inside
    it, and ends in none. *)
Lemma tokens_one_wide_argument prefix a :
  token prefix -> noSpace a = true -> trimEnd a = a -> a <> "" ->
  endsWith (prefix ++ " " ++ a ++ LF) LF = true
  /\ tokens (prefix ++ " " ++ a ++ LF) = [prefix; a].
Proof.
  intros Hp Hs Ht Hne.
  assert (E : prefix ++ " " ++ a ++ LF = (prefix ++ " " ++ a) ++ LF)
    by (rewrite !append_assoc; reflexivity).
  split; [rewrite E; apply endsWith_LF|].
  unfold tokens, trim. rewrite (@trimStart_token prefix Hp).
  rewrite E, trimEnd_LF.
  assert (Hta : trimEnd a <> "") by (rewrite Ht; exact Hne).
  assert (Hsa : trimEnd (" " ++ a) <> "").
  { change (" " ++ a) with (String " " a).
    rewrite (trimEnd_String _ _ Hta). discriminate. }
  rewrite (@trimEnd_app prefix _ Hsa).
  change (" " ++ a) with (String " " a).
  rewrite (trimEnd_String _ _ Hta), Ht.
  rewrite split_space_app by apply Hp.
  rewrite (split_space_noSpace _ Hs). reflexivity.
Qed.

Lemma parseCommand_single_token_then_line a b x :
  token a -> token b ->
  parseCommand (a ++ LF ++ b ++ x ++ LF) = ParseERROR.
Proof.
  intros Ha Hb.
  destruct Hb as [Hbne Hbws]. destruct b as [|c b]; [congruence|].
  cbn [noWhiteSpace] in Hbws. apply andb_prop in Hbws.
  destruct Hbws as [Hc _]. apply negb_true_iff in Hc.
  pose proof (@trimEnd_head c (b ++ x ++ LF) Hc) as Hy.
  assert (Hy' : trimEnd (LF ++ String c b ++ x ++ LF) <> "").
  { change (LF ++ String c b ++ x ++ LF)
      with (String (ascii_of_nat 10) (String c (b ++ x ++ LF))).
    rewrite (trimEnd_String _ _ Hy). discriminate. }
  assert (Ht : exists h tl,
             tokens (a ++ LF ++ String c b ++ x ++ LF) = ((a ++ LF) ++ h) :: tl).
  { unfold tokens, trim. rewrite (@trimStart_token a Ha).
    rewrite (@trimEnd_app a _ Hy').
    change (LF ++ String c b ++ x ++ LF)
      with (String (ascii_of_nat 10) (String c (b ++ x ++ LF))).
    rewrite (trimEnd_String _ _ Hy).
    change (String (ascii_of_nat 10) (trimEnd (String c (b ++ x ++ LF))))
      with (LF ++ trimEnd (String c (b ++ x ++ LF))).
    rewrite <- append_assoc. apply split_space_head.
    rewrite noSpace_app, (noWhiteSpace_noSpace _ (proj2 Ha)). reflexivity. }
  destruct Ht as (h & tl & Ht).
  apply (parseCommand_prefix_with_white_space _ Ht).
  rewrite !noWhiteSpace_app. cbn. rewrite andb_false_r. reflexivity.
Qed.

Lemma parseCommand_intensity_then_line n b :
  token b ->
  parseCommand ("TL_INTENSITY " ++ toString n ++ LF ++ b ++ LF) =
  if (0 <=? n) && (n <=? 255) then Cmd (TL_INTENSITY n) else ParseERROR.
Proof.
  intros [Hbne Hbws].
  assert (Hn : token (toString n)).
  { rewrite <- (append_nil_r (toString n)).
    apply token_string_of_int. reflexivity. }
  assert (Hs : noSpace (toString n ++ LF ++ b) = true).
  { rewrite !noSpace_app, (noWhiteSpace_noSpace _ (proj2 Hn)),
      (noWhiteSpace_noSpace _ Hbws). reflexivity. }
  assert (Hb : trimEnd b = b) by (apply trimEnd_noWhiteSpace; exact Hbws).
  assert (Hlb : trimEnd (LF ++ b) = LF ++ b).
  { change (LF ++ b) with (String (ascii_of_nat 10) b).
    rewrite trimEnd_String by (rewrite Hb; exact Hbne).
    rewrite Hb. reflexivity. }
  assert (Ht : trimEnd (toString n ++ LF ++ b) = toString n ++ LF ++ b).
  { rewrite trimEnd_app; rewrite Hlb; [reflexivity | discriminate]. }
  assert (Hne : toString n ++ LF ++ b <> "").
  { destruct (toString n) eqn:E; [destruct Hn; congruence | discriminate]. }
  destruct (tokens_one_wide_argument token_TL_INTENSITY Hs Ht Hne) as [He Htk].
  change ("TL_INTENSITY" ++ " " ++ (toString n ++ LF ++ b) ++ LF)
    with ("TL_INTENSITY " ++ (toString n ++ LF ++ b) ++ LF) in He, Htk.
  replace ("TL_INTENSITY " ++ toString n ++ LF ++ b ++ LF)
    with ("TL_INTENSITY " ++ (toString n ++ LF ++ b) ++ LF)
    by (rewrite !append_assoc; reflexivity).
  rewrite (parseCommand_tokens _ He), Htk. cbn. unfold intensityOf.
  rewrite parseInt_toString by reflexivity. reflexivity.
Qed.

(** X13. A chunk of data that holds two lines is parsed as one line:
    the line feed between them is no separator for the parser.  When
    the first line is a single token, as [INITIALIZE] and [SHUTDOWN]
    are, the first token of the chunk runs across the line feed, the
    chunk is rejected and neither command is carried out.  When the
    first line is [TL_INTENSITY n], with [n] from 0 to 255 written the
    way the program prints numbers, and the second line is a single
    token, the second line becomes the tail of the argument, which
    [parseInt] ignores: the chunk is handled as [TL_INTENSITY n] alone,
    and the second command is dropped. *)
Theorem parseCommand_two_commands_in_one_chunk :
  (forall a b x w,
      token a -> token b ->
      parseCommand (a ++ LF ++ b ++ x ++ LF) = ParseERROR
      /\ handleRequest (a ++ LF ++ b ++ x ++ LF) w = Some (Ret ERROR, w))
  /\
  (forall n b w,
      0 <= n <= 255 -> token b ->
      parseCommand ("TL_INTENSITY " ++ toString n ++ LF ++ b ++ LF) =
        Cmd (TL_INTENSITY n)
      /\ handleRequest ("TL_INTENSITY " ++ toString n ++ LF ++ b ++ LF) w =
         executeCommand (TL_INTENSITY n) w).
Proof.
  split.
  - intros a b x w Ha Hb.
    pose proof (parseCommand_single_token_then_line x Ha Hb) as Hp.
    split; [exact Hp|]. unfold handleRequest. rewrite Hp. reflexivity.
  - intros n b w Hn Hb.
    assert (Hp : parseCommand ("TL_INTENSITY " ++ toString n ++ LF ++ b ++ LF) =
                 Cmd (TL_INTENSITY n)).
    { rewrite (parseCommand_intensity_then_line n Hb).
      destruct (Z.leb_spec 0 n); [|lia]. destruct (Z.leb_spec n 255); [|lia].
      reflexivity. }
    split; [exact Hp|]. unfold handleRequest. rewrite Hp. reflexivity.
Qed.

Lemma parseCommand_two_commands_in_one_chunk_witness :
  (token "INITIALIZE" /\ token "TL_INTENSITY"
   /\ parseCommand ("INITIALIZE" ++ LF ++ "TL_INTENSITY" ++ " 5" ++ LF)
      = ParseERROR)
  /\ (0 <= 5 <= 255 /\ token "INITIALIZE"
      /\ parseCommand ("TL_INTENSITY 5" ++ LF ++ "INITIALIZE" ++ LF)
         = Cmd (TL_INTENSITY 5)).
Proof.
  destruct parseCommand_two_commands_in_one_chunk as [T1 T2].
  assert (H1 : token "INITIALIZE") by (split; [discriminate | reflexivity]).
  assert (H5 : 0 <= 5 <= 255) by lia.
  split.
  - split; [exact H1|]. split; [exact token_TL_INTENSITY|].
    exact (proj1 (T1 "INITIALIZE" "TL_INTENSITY" " 5" cold
                     H1 token_TL_INTENSITY)).
  - split; [exact H5|]. split; [exact H1|].
    exact (proj1 (T2 5 "INITIALIZE" cold H5 H1)).
Defined.

Lemma tokens_double_space prefix a :
  token prefix -> token a ->
  endsWith (prefix ++ "  " ++ a ++ LF) LF = true
  /\ tokens (prefix ++ "  " ++ a ++ LF) = [prefix; ""; a].
Proof.
  intros Hp Ha. split.
  - replace (prefix ++ "  " ++ a ++ LF) with ((prefix ++ "  " ++ a) ++ LF)
      by (rewrite !append_assoc; reflexivity).
    apply endsWith_LF.
  - unfold tokens, trim. rewrite (@trimStart_token prefix Hp).
    replace (prefix ++ "  " ++ a ++ LF) with ((prefix ++ "  " ++ a) ++ LF)
      by (rewrite !append_assoc; reflexivity).
    rewrite trimEnd_LF.
    assert (Hta : trimEnd a = a) by (apply trimEnd_noWhiteSpace, Ha).
    assert (Hne : trimEnd ("  " ++ a) <> "").
    { change ("  " ++ a) with (String " " (String " " a)).
      rewrite trimEnd_String; [discriminate|].
      rewrite trimEnd_String; [discriminate|].
      rewrite Hta. apply Ha. }
    rewrite (@trimEnd_app prefix _ Hne).
    change ("  " ++ a) with (String " " (String " " a)).
    rewrite trimEnd_String, trimEnd_String, Hta;
      [|rewrite Hta; apply Ha
       |rewrite trimEnd_String; [discriminate | rewrite Hta; apply Ha]].
    rewrite split_space_app by apply Hp.
    cbn [split_space]. change (Ascii.eqb " " " ") with true. cbv iota.
    rewrite split_space_noWhiteSpace by apply Ha. reflexivity.
Qed.

(** X14. Two spaces between a command and its argument make an empty
    argument of their own: [TL_INTENSITY] and [SHUTTER_OPEN] then count
    two arguments and are rejected, however good the value is. *)
Theorem parseCommand_double_space a :
  token a ->
  tokens ("TL_INTENSITY  " ++ a ++ LF) = ["TL_INTENSITY"; ""; a]
  /\ parseCommand ("TL_INTENSITY  " ++ a ++ LF) = ParseERROR
  /\ parseCommand ("SHUTTER_OPEN  " ++ a ++ LF) = ParseERROR.
Proof.
  intros Ha.
  destruct (tokens_double_space token_TL_INTENSITY Ha) as [_ T1].
  destruct (tokens_double_space token_SHUTTER_OPEN Ha) as [_ T2].
  change ("TL_INTENSITY" ++ "  " ++ a ++ LF)
    with ("TL_INTENSITY  " ++ a ++ LF) in T1.
  change ("SHUTTER_OPEN" ++ "  " ++ a ++ LF)
    with ("SHUTTER_OPEN  " ++ a ++ LF) in T2.
  split; [exact T1|]. split.
  - apply (parseCommand_wrong_count _ T1); [left; reflexivity | discriminate].
  - apply (parseCommand_wrong_count _ T2); [right; reflexivity | discriminate].
Qed.

Lemma parseCommand_double_space_witness :
  token "1"
  /\ parseCommand ("SHUTTER_OPEN  1" ++ LF) = ParseERROR
  /\ parseCommand ("SHUTTER_OPEN 1" ++ LF) = Cmd (SHUTTER_OPEN true).
Proof.
  assert (H : token "1") by (split; [discriminate | reflexivity]).
  split; [exact H|].
  split; [exact (proj2 (proj2 (@parseCommand_double_space "1" H))) | reflexivity].
Defined.

(** X15. [INITIALIZE] and [SHUTDOWN] are recognised by their first
    token alone: whatever tokens follow on the line are ignored and the
    command is accepted. *)
Theorem parseCommand_prefix_only args :
  Forall token args ->
  parseCommand (joinSpace ("INITIALIZE" :: args) ++ LF) = Cmd INITIALIZE
  /\ parseCommand (joinSpace ("SHUTDOWN" :: args) ++ LF) = Cmd SHUTDOWN.
Proof.
  intros H.
  assert (G : forall name, token name ->
               endsWith (joinSpace (name :: args) ++ LF) LF = true
               /\ tokens (joinSpace (name :: args) ++ LF) = name :: args).
  { intros name Hn. apply tokens_joinSpace; [|discriminate].
    apply Forall_cons; assumption. }
  split.
  - destruct (G "INITIALIZE") as [He Ht]; [split; [discriminate | reflexivity]|].
    rewrite (parseCommand_tokens _ He), Ht. reflexivity.
  - destruct (G "SHUTDOWN") as [He Ht]; [split; [discriminate | reflexivity]|].
    rewrite (parseCommand_tokens _ He), Ht. reflexivity.
Qed.

Lemma parseCommand_prefix_only_witness :
  Forall token ["now"; "please"]
  /\ parseCommand ("SHUTDOWN now please" ++ LF) = Cmd SHUTDOWN.
Proof.
  assert (H : Forall token ["now"; "please"]).
  { apply Forall_cons; [split; [discriminate | reflexivity]|].
    apply Forall_cons; [split; [discriminate | reflexivity] | apply Forall_nil]. }
  split; [exact H|].
  exact (proj2 (@parseCommand_prefix_only ["now"; "please"] H)).
Defined.

(** ** A level from the client to the device *)

Lemma parseCommand_numeral n :
  parseCommand ("TL_INTENSITY " ++ toString n ++ LF) =
  if (0 <=? n) && (n <=? 255) then Cmd (TL_INTENSITY n) else ParseERROR.
Proof.
  assert (Ht : token (toString n)).
  { rewrite <- (append_nil_r (toString n)).
    apply token_string_of_int. reflexivity. }
  rewrite (parseCommand_intensity_line Ht). unfold intensityOf.
  rewrite <- (append_nil_r (toString n)) at 1.
  rewrite parseInt_toString by reflexivity. reflexivity.
Qed.

(** X16. The numeral of a level goes through unchanged.  On an open
    port with the shutter open, the line [TL_INTENSITY n] for an [n]
    from 0 to 255, written the way the program itself prints numbers,
    makes the program hand the device ["77020 n 0"] with that same
    numeral, and nothing else, however the device answers.  For an [n]
    outside 0..255 the client is answered ["ERROR"] and the world is
    untouched: nothing is stored and nothing is sent. *)
Theorem level_from_client_to_device :
  (forall n w answer w',
      0 <= n <= 255 ->
      _port w = true ->
      store.shutterOpen (_state w) = true ->
      onData ("TL_INTENSITY " ++ toString n ++ LF) w = Some (answer, w') ->
      written (serial w') =
        (written (serial w) ++ [wire ("77020 " ++ toString n ++ " 0")])%list
      /\ store.intensity (_state w') = n)
  /\
  (forall n w,
      n < 0 \/ 255 < n ->
      onData ("TL_INTENSITY " ++ toString n ++ LF) w =
        Some (Some ("ERROR" ++ LF), w)).
Proof.
  split.
  - intros n w answer w' Hn Hp Hs H.
    unfold onData, handleRequest in H. rewrite parseCommand_numeral in H.
    destruct (Z.leb_spec 0 n); [|lia]. destruct (Z.leb_spec n 255); [|lia].
    cbn [andb] in H.
    destruct (executeCommand (TL_INTENSITY n) w) as [[o w1]|] eqn:E;
      [|discriminate].
    destruct (setter_written (TL_INTENSITY n) w eq_refl Hp E)
      as (Hw & _ & Hst).
    cbn [stateAfter] in Hw, Hst.
    unfold syncLine, store.setIntensity in Hw.
    cbn [store.shutterOpen store.intensity] in Hw. rewrite Hs in Hw.
    assert (G : written (serial w1) =
                (written (serial w) ++ [wire ("77020 " ++ toString n ++ " 0")])%list
                /\ store.intensity (_state w1) = n)
      by (split; [exact Hw | rewrite Hst; reflexivity]).
    destruct o; inversion H; subst; exact G.
  - intros n w Hn. unfold onData, handleRequest.
    rewrite parseCommand_numeral.
    destruct (Z.leb_spec 0 n); destruct (Z.leb_spec n 255); try lia;
      reflexivity.
Qed.

Lemma level_from_client_to_device_witness :
  (0 <= 100 <= 255
   /\ onData ("TL_INTENSITY 100" ++ LF) (ready (store.mkState true 0) [["77020"]])
      = Some (Some ("OK" ++ LF), afterwards lit100 [wire "77020 100 0"] [])
   /\ written (serial (afterwards lit100 [wire "77020 100 0"] []))
      = [wire "77020 100 0"])
  /\ (255 < 300
      /\ onData ("TL_INTENSITY 300" ++ LF) cold = Some (Some ("ERROR" ++ LF), cold)).
Proof.
  destruct level_from_client_to_device as [T1 T2].
  assert (H : onData ("TL_INTENSITY " ++ toString 100 ++ LF)
                (ready (store.mkState true 0) [["77020"]])
              = Some (Some ("OK" ++ LF),
                      afterwards lit100 [wire "77020 100 0"] []))
    by (vm_compute; reflexivity).
  split.
  - split; [lia|]. split; [exact H|].
    refine (proj1 (T1 100 (ready (store.mkState true 0) [["77020"]]) _ _ _
                      eq_refl eq_refl H)). lia.
  - split; [lia|]. refine (T2 300 cold _). right. lia.
Defined.

(** ** What an answer of OK rests on, and what any initialisation sends *)

(** X17. When a command other than [SHUTDOWN] returns ["OK"], the port
    is open, the last line handed to it is the synchronisation line of
    the session state the command leaves, and the line the exchange of
    that line took as its answer was ["77020"].  That need not be an
    answer of the device to this line: a [TL_INTENSITY] or
    [SHUTTER_OPEN] that finds ["77020"] at the head of the queue
    returns ["OK"] on it, whatever the device sends, and leaves what
    arrives during the write in the queue. *)
Theorem OK_means_last_exchange_returned_77020 :
  (forall command w w',
      command <> SHUTDOWN ->
      executeCommand command w = Some (Ret OK, w') ->
      _port w' = true
      /\ (exists before,
            written (serial w') =
            (before ++ [wire (syncLine (_state w'))])%list)
      /\ exists w1,
           _state w1 = _state w'
           /\ writeToPort (syncLine (_state w')) w1 = Some (Ret "77020", w'))
  /\
  (forall command w q,
      isSetter command = true ->
      _port w = true ->
      hd None (writeResults (serial w)) = None ->
      _responseQueue w = "77020" :: q ->
      exists w',
        executeCommand command w = Some (Ret OK, w')
        /\ _responseQueue w' = (q ++ hd [] (incoming (serial w)))%list).
Proof.
  split.
  - intros command w w' Hc H.
    assert (G : exists result w1 syncResult,
               operationOf command w = Some (Ret result, w1)
               /\ syncMicroscopeToState w1 = Some (Ret syncResult, w')
               /\ OK = match syncResult with ERROR => ERROR | OK => result end).
    { destruct command; try congruence; unfold executeCommand in H;
        apply afterSwitch_inv in H; exact H. }
    destruct G as (result & w1 & syncResult & _ & Hs & Hres).
    assert (syncResult = OK) as -> by (destruct syncResult; [reflexivity | discriminate]).
    rewrite syncMicroscopeToState_unfold in Hs.
    destruct (writeToPort (syncLine (_state w1)) w1) as [[[r|e|] w2]|] eqn:E;
      try discriminate.
    unfold echoed in Hs. destruct (r =? "77020")%string eqn:Er;
      [|discriminate]. apply String.eqb_eq in Er. subst r.
    inversion Hs; subst. pose proof (writeToPort_Ret _ _ E) as (_ & Hp & Hst & Hw).
    split; [exact Hp|]. split.
    + exists (written (serial w1)). rewrite Hst. exact Hw.
    + exists w1. split; [symmetry; exact Hst | rewrite Hst; exact E].
  - intros command w q Hc Hp Hw Hq.
    rewrite (setter_executeCommand _ w Hc), syncMicroscopeToState_unfold.
    set (v := withState (stateAfter command (_state w)) w).
    assert (Hpv : _port v = true) by exact Hp.
    rewrite (writeToPort_open _ _ Hpv).
    change (writeResults (serial v)) with (writeResults (serial w)). rewrite Hw.
    assert (Hq' : _responseQueue (snd (portWrite (wire (syncLine (_state v))) v)) =
                  "77020" :: (q ++ hd [] (incoming (serial w)))%list).
    { rewrite portWrite_queue.
      change (_responseQueue v) with (_responseQueue w).
      change (incoming (serial v)) with (incoming (serial w)).
      rewrite Hq. reflexivity. }
    rewrite (waitForResponse_queued _ _ _ _ Hq').
    eexists. split; reflexivity.
Qed.

Lemma OK_means_last_exchange_returned_77020_witness :
  (SHUTTER_OPEN true <> SHUTDOWN
   /\ executeCommand (SHUTTER_OPEN true)
        (ready (store.mkState false 100) [["77020"]]) =
      Some (Ret OK, afterwards lit100 [wire "77020 100 0"] [])
   /\ exists before,
        written (serial (afterwards lit100 [wire "77020 100 0"] [])) =
        (before ++ [wire (syncLine lit100)])%list)
  /\ (_port (stale "77020" []) = true
      /\ _responseQueue (stale "77020" []) = ["77020"]
      /\ exists w',
           executeCommand (SHUTTER_OPEN true) (stale "77020" []) =
           Some (Ret OK, w')).
Proof.
  destruct OK_means_last_exchange_returned_77020 as [T1 T2].
  assert (Hc : SHUTTER_OPEN true <> SHUTDOWN) by discriminate.
  assert (H : executeCommand (SHUTTER_OPEN true)
                (ready (store.mkState false 100) [["77020"]]) =
              Some (Ret OK, afterwards lit100 [wire "77020 100 0"] []))
    by (vm_compute; reflexivity).
  split.
  - split; [exact Hc|]. split; [exact H|].
    exact (proj1 (proj2 (T1 _ _ _ Hc H))).
  - split; [reflexivity|]. split; [reflexivity|].
    destruct (T2 (SHUTTER_OPEN true) (stale "77020" []) []
                 eq_refl eq_refl eq_refl eq_refl) as (w' & E & _).
    exists w'. exact E.
Defined.

Lemma expectAll_written rest : forall steps w o w',
  _port w = true ->
  expectAll steps rest w = Some (o, w') ->
  (exists k, (1 <= k <= List.length steps)%nat
             /\ written (serial w') =
                (written (serial w) ++ map wire (firstn k (map fst steps)))%list)
  \/ (exists w4, answered steps w w4 /\ rest w4 = Some (o, w')).
Proof.
  induction steps as [|[line code] steps IH]; intros w o w' Hp H.
  - right. exists w. split; [reflexivity | exact H].
  - cbn [expectAll] in H. rewrite expect_unfold in H.
    destruct (writeToPort line w) as [[o1 w1]|] eqn:E; [|discriminate].
    pose proof (writeToPort_frame _ _ E) as [[Hp1 _] Hw1].
    rewrite Hp in Hw1, Hp1.
    assert (Hone : forall v, written (serial v) = written (serial w1) ->
               exists k, (1 <= k <= List.length ((line, code) :: steps))%nat
                 /\ written (serial v) =
                    (written (serial w)
                     ++ map wire (firstn k (map fst ((line, code) :: steps))))%list).
    { intros v Hv. exists 1%nat. split; [simpl; lia|].
      rewrite Hv, Hw1. reflexivity. }
    destruct o1 as [r|e|].
    + destruct (r =? code)%string eqn:Er.
      * apply String.eqb_eq in Er. subst r.
        destruct (IH _ _ _ Hp1 H) as [(k & Hk & Hw)|(w4 & Ha & Hr)].
        -- left. exists (S k). split; [simpl; lia|].
           rewrite Hw, Hw1, <- app_assoc. reflexivity.
        -- right. exists w4. split; [|exact Hr]. simpl. eauto.
      * inversion H; subst. left. apply Hone. reflexivity.
    + inversion H; subst. left. apply Hone. reflexivity.
    + inversion H; subst. left. apply Hone. reflexivity.
Qed.

(** X18. However an initialisation ends, what it has handed to the
    port is a beginning, of at least one line, of the sequence
    ["77025 0"], ["77005 0"], ["77020 0 0"], ["77032 0 1"] and the
    synchronisation line of the session state: no line is sent out of
    turn and none twice, also when an exchange is rejected or never
    answered. *)
Theorem initialize_sends_a_prefix w o w' :
  initialize w = Some (o, w') ->
  exists k,
    (1 <= k <= 5)%nat
    /\ written (serial w') =
       (written (serial w)
        ++ map wire (firstn k ["77025 0"; "77005 0"; "77020 0 0"; "77032 0 1";
                               syncLine (_state w)]))%list.
Proof.
  intros H. rewrite initialize_steps in H.
  assert (Hp : _port (openPort w) = true).
  { unfold openPort. destruct (_port w) eqn:E; [exact E | reflexivity]. }
  destruct (expectAll_written _ _ _ Hp H) as [(k & Hk & Hw)|(w4 & Ha & Hs)].
  - exists k. cbn [List.length setupExchanges] in Hk. split; [lia|].
    rewrite Hw, openPort_written. f_equal. f_equal.
    destruct k as [|[|[|[|[|k]]]]]; try lia; reflexivity.
  - exists 5%nat. split; [lia|].
    pose proof (answered_frame _ _ _ Ha) as [[Hp4 Hs4] Hw4].
    apply syncMicroscopeToState_frame in Hs. destruct Hs as [_ Hw'].
    rewrite Hp4, Hp in Hw'.
    rewrite Hw', Hw4, Hs4, openPort_written, openPort_state, <- app_assoc.
    reflexivity.
Qed.

Lemma initialize_sends_a_prefix_witness :
  initialize (ready lit100 [["77025"]]) =
    Some (Pending,
          unhandledRejection "timeout"
            (afterwards lit100 [wire "77025 0"; wire "77005 0"] []))
  /\ exists k,
       (1 <= k <= 5)%nat
       /\ written (serial (unhandledRejection "timeout"
                             (afterwards lit100
                                [wire "77025 0"; wire "77005 0"] []))) =
          (written (serial (ready lit100 [["77025"]]))
           ++ map wire (firstn k ["77025 0"; "77005 0"; "77020 0 0";
                                  "77032 0 1";
                                  syncLine (_state (ready lit100 [["77025"]]))]))%list.
Proof.
  assert (H : initialize (ready lit100 [["77025"]]) =
              Some (Pending,
                    unhandledRejection "timeout"
                      (afterwards lit100 [wire "77025 0"; wire "77005 0"] [])))
    by (vm_compute; reflexivity).
  split; [exact H | exact (@initialize_sends_a_prefix _ _ _ H)].
Defined.
